(** * Programming Courses API: a shallow embedding of [main.py] and [schemas.py]

    The service is a set of FastAPI route handlers over a MongoDB database
    reached through pymongo.  The embedding keeps the shape of the Python
    code: the module-level handle [db] (either [None] or a database) is the
    state of a small state-and-exception monad, every route handler is a
    computation in that monad, and [try]/[except] is a combinator. *)

From Stdlib Require Import NArith Ascii String.
From stdpp Require Import base option list strings gmap pretty.

Local Open Scope N_scope.

(** ** Python values *)

(** A Python [str] is a sequence of Unicode code points, so that [len] and
    slicing count characters as Python does. *)
Abbreviation pystr := (list N).

(** An ASCII literal of the source, character by character. *)
Definition lit (s : string) : pystr :=
  (λ a, N_of_ascii a) <$> list_ascii_of_string s.

(** The values stored in a document's fields: [None], [str], a list of
    [str] (for instance [highlights], [interests]), a [dict] from [str] to
    [str] (for instance [socials]), a [datetime] (microseconds on the wall
    clock) and the [ObjectId] the store assigns to [_id]. *)
Inductive value :=
  | VNone
  | VStr (s : pystr)
  | VList (l : list pystr)
  | VDict (kvs : list (pystr * pystr))
  | VDatetime (t : N)
  | VObjectId (n : N).

Global Instance value_eq_dec : EqDecision value.
Proof. solve_decision. Defined.

(** A document (a Python [dict] with [str] keys, a MongoDB document). *)
Abbreviation document := (gmap string value).

Definition of_opt_str (o : option pystr) : value :=
  match o with Some s => VStr s | None => VNone end.

Definition of_opt_list (o : option (list pystr)) : value :=
  match o with Some l => VList l | None => VNone end.

Definition of_opt_dict (o : option (list (pystr * pystr))) : value :=
  match o with Some d => VDict d | None => VNone end.

(** ** Exceptions and the handler monad *)

(** The exception classes that occur: the built-in [Exception],
    [TypeError], [AttributeError] and [NotImplementedError], pymongo's
    [PyMongoError], FastAPI's [HTTPException] and the
    [RequestValidationError] with which FastAPI rejects a body that fails
    its model (answered with status 422). All of them derive from
    [Exception]. *)
Inductive exn :=
  | Exception (msg : pystr)
  | TypeError (msg : pystr)
  | AttributeError (msg : pystr)
  | NotImplementedError (msg : pystr)
  | PyMongoError (msg : pystr)
  | HTTPException (status_code : N) (detail : pystr)
  | RequestValidationError.

Global Instance exn_eq_dec : EqDecision exn.
Proof. solve_decision. Defined.

(** [str(e)]: the message of the exception; Starlette's [HTTPException]
    prints as ["{status_code}: {detail}"]. *)
Definition str (e : exn) : pystr :=
  match e with
  | Exception m | TypeError m | AttributeError m
  | NotImplementedError m | PyMongoError m => m
  | HTTPException c d => lit (pretty c) ++ lit ": " ++ d
  | RequestValidationError => lit "validation error"
  end.

Definition is_HTTPException (e : exn) : bool :=
  match e with HTTPException _ _ => true | _ => false end.

Inductive result (A : Type) :=
  | Return (a : A)
  | Raise (e : exn).
Arguments Return {A} a.
Arguments Raise {A} e.

(** A computation over a mutable state [St] that returns or raises. The
    state reached is kept on both outcomes: what a [try] body wrote before
    it raised stays written. *)
Definition M (St A : Type) : Type := St → result A * St.

Global Instance M_ret {St} : MRet (M St) := λ A a s, (Return a, s).

Global Instance M_bind {St} : MBind (M St) := λ A B f m s,
  match m s with
  | (Return a, s') => f a s'
  | (Raise e, s') => (Raise e, s')
  end.

Definition raise {St A} (e : exn) : M St A := λ s, (Raise e, s).

(** [try: body  except Exception as e: handler e]. *)
Definition try_except {St A} (body : M St A) (handler : exn → M St A) : M St A :=
  λ s, match body s with
       | (Return a, s') => (Return a, s')
       | (Raise e, s') => handler e s'
       end.

(** [for x in xs: f x]. *)
Fixpoint for_each {St A} (xs : list A) (f : A → M St unit) : M St unit :=
  match xs with
  | [] => mret tt
  | x :: xs' => f x ;; for_each xs' f
  end.

(** ** The document store

    [db] is a pymongo [Database], reached through the operations the
    handlers call. A collection is the list of its documents in insertion
    order; a collection that was never written holds no document. *)

Record Database := {
  collections : gmap string (list document);
  (** the next [ObjectId] the driver generates *)
  next_oid : N;
  (** [Some msg]: the server cannot be reached, and every operation raises
      a [PyMongoError] whose text is [msg] *)
  failure : option pystr;
}.

(** The state of the service: the module-level [db] of [database.py],
    [None] when no database is configured. *)
Abbreviation handle := (option Database).

Definition docs_of (d : Database) (name : string) : list document :=
  default [] (collections d !! name).

Definition set_docs (name : string) (docs : list document) (d : Database) : Database :=
  {| collections := <[name := docs]> (collections d);
     next_oid := next_oid d;
     failure := failure d |}.

Definition bump_oid (d : Database) : Database :=
  {| collections := collections d;
     next_oid := N.succ (next_oid d);
     failure := failure d |}.

(** An operation on the database behind [db]. On [None] the expression
    raises before any operation is sent ([none_exn]); on an unreachable
    server the operation raises. *)
Definition on_db {A} (none_exn : exn) (op : Database → A * Database) : M handle A :=
  λ db, match db with
        | None => (Raise none_exn, None)
        | Some d =>
            match failure d with
            | Some msg => (Raise (PyMongoError msg), Some d)
            | None => let '(a, d') := op d in (Return a, Some d')
            end
        end.

Definition not_subscriptable : exn :=
  TypeError (lit "'NoneType' object is not subscriptable").

(** [db is None]. *)
Definition db_is_None : M handle bool :=
  λ db, (Return (bool_decide (db = None)), db).

(** [bool(db)], the truth test of [if db]. [None] is false. A pymongo
    [Database] defines [__bool__] to raise [NotImplementedError]: the
    driver requires the comparison [db is not None]. *)
Definition db_bool : M handle bool :=
  λ db, match db with
        | None => (Return false, db)
        | Some _ =>
            (Raise (NotImplementedError
                      (lit "Database objects do not implement truth value testing or bool(). Please compare with None instead: database is not None")),
             db)
        end.

(** [db[name].count_documents({})]. *)
Definition count_documents (name : string) : M handle N :=
  on_db not_subscriptable (λ d, (N.of_nat (length (docs_of d name)), d)).

(** [list(db[name].find({}, {"_id": 0}))]: every document, without its
    [_id]. *)
Definition find (name : string) : M handle (list document) :=
  on_db not_subscriptable (λ d, (delete "_id" <$> docs_of d name, d)).

(** The filter [{field: s}]: the field holds the string [s], or an array
    that contains it. *)
Definition matches (field : string) (s : pystr) (doc : document) : bool :=
  match doc !! field with
  | Some (VStr s') => bool_decide (s' = s)
  | Some (VList l) => bool_decide (s ∈ l)
  | _ => false
  end.

Fixpoint first_match (p : document → bool) (docs : list document) : option document :=
  match docs with
  | [] => None
  | doc :: docs' => if p doc then Some doc else first_match p docs'
  end.

(** [db[name].find_one({field: s}, {"_id": 0})]. *)
Definition find_one (name field : string) (s : pystr) : M handle (option document) :=
  on_db not_subscriptable
    (λ d, (delete "_id" <$> first_match (matches field s) (docs_of d name), d)).

(** [db[name].insert_one(doc)]: the driver adds a generated [_id] when
    the document has none. (The documents of this service never carry an
    [_id] of their own, so no duplicate key can arise.) *)
Definition insert_one (name : string) (doc : document) : M handle unit :=
  on_db not_subscriptable
    (λ d, match doc !! "_id" with
          | Some _ => (tt, set_docs name (docs_of d name ++ [doc]) d)
          | None =>
              (tt, bump_oid (set_docs name
                     (docs_of d name ++ [<["_id" := VObjectId (next_oid d)]> doc]) d))
          end).

(** A BSON datetime counts whole milliseconds: the driver cuts a
    [datetime] to its millisecond when it encodes it. [millis t] is the
    clock reading [t] (in microseconds) as it comes back from the store. *)
Definition millis (t : N) : N := 1000 * (t / 1000).

(** The BSON encoding of a field value, read back. *)
Definition bson (v : value) : value :=
  match v with
  | VDatetime t => VDatetime (millis t)
  | _ => v
  end.

(** The first document that satisfies [p] is replaced by its image under
    [f]; [None] when no document satisfies [p]. *)
Fixpoint update_first (p : document → bool) (f : document → document)
    (docs : list document) : option (list document) :=
  match docs with
  | [] => None
  | doc :: docs' =>
      if p doc then Some (f doc :: docs')
      else (doc ::.) <$> update_first p f docs'
  end.

(** [db[name].update_one({field: s}, {"$set": set, "$setOnInsert": soi},
    upsert=True)]: one atomic write. The first matching document gets the
    fields of [set]; when none matches, a document is inserted that is
    made of the filter's field, the fields of [set] and those of [soi],
    under a generated [_id]. The fields are stored in their BSON
    encoding. *)
Definition update_one_upsert (name field : string) (s : pystr)
    (set soi : document) : M handle unit :=
  on_db not_subscriptable
    (λ d, match update_first (matches field s) (λ doc, (bson <$> set) ∪ doc)
                  (docs_of d name) with
          | Some docs' => (tt, set_docs name docs' d)
          | None =>
              (tt, bump_oid (set_docs name
                     (docs_of d name ++
                        [<["_id" := VObjectId (next_oid d)]>
                           ((bson <$> soi)
                              ∪ ((bson <$> set) ∪ {[field := VStr s]}))]) d))
          end).

(** [db.list_collection_names()]. The order of the names is the
    server's and is not modelled: the model lists them in the order of
    the map, and no property below rests on that order. *)
Definition list_collection_names : M handle (list pystr) :=
  on_db (AttributeError (lit "'NoneType' object has no attribute 'list_collection_names'"))
    (λ d, ((λ kv, lit kv.1) <$> map_to_list (collections d), d)).

(** ** [database.py] *)

(** Modelled from the spec: [create_document] of [database.py], which is
    not among the sources. The spec names it the store adapter's insert:
    "insert every record from the seed list, in order, each as an
    independent write" and "Pure insert, no dedup"; on an absent store a
    write "fails outright". It takes a dict, or a model that it dumps. *)
Definition create_document (collection_name : string) (data : document) : M handle unit :=
  none ← db_is_None;
  if (none : bool) then raise (Exception (lit "Database not available"))
  else insert_one collection_name data.

(** ** [schemas.py] *)

(** [len(s)] of a [str]. *)
Definition len (s : pystr) : N := N.of_nat (length s).

(** A field declared [str]: present and a string. *)
Definition str_field (body : document) (k : string) : option pystr :=
  match body !! k with Some (VStr s) => Some s | _ => None end.

(** A field declared [Optional[str]] with default [None]. *)
Definition opt_str_field (body : document) (k : string) : option (option pystr) :=
  match body !! k with
  | None | Some VNone => Some None
  | Some (VStr s) => Some (Some s)
  | _ => None
  end.

(** A field declared [Optional[List[str]]] with default [None]. *)
Definition opt_list_field (body : document) (k : string) : option (option (list pystr)) :=
  match body !! k with
  | None | Some VNone => Some None
  | Some (VList l) => Some (Some l)
  | _ => None
  end.

Module CourseCategory.

Record t := {
  slug : pystr;
  title : pystr;
  blurb : pystr;
  highlights : option (list pystr);
  color : option pystr;
  accent : option pystr;
}.

Definition model_dump (c : t) : document :=
  {[ "slug" := VStr (slug c);
     "title" := VStr (title c);
     "blurb" := VStr (blurb c);
     "highlights" := of_opt_list (highlights c);
     "color" := of_opt_str (color c);
     "accent" := of_opt_str (accent c) ]}.

End CourseCategory.

Module Staff.

Record t := {
  name : pystr;
  role : pystr;
  bio : option pystr;
  avatar : option pystr;
  socials : option (list (pystr * pystr));
}.

Definition model_dump (m : t) : document :=
  {[ "name" := VStr (name m);
     "role" := VStr (role m);
     "bio" := of_opt_str (bio m);
     "avatar" := of_opt_str (avatar m);
     "socials" := of_opt_dict (socials m) ]}.

End Staff.

Module ContactMessage.

Record t := {
  name : pystr;
  email : pystr;
  message : pystr;
  topic : option pystr;
}.

Definition model_dump (m : t) : document :=
  {[ "name" := VStr (name m);
     "email" := VStr (email m);
     "message" := VStr (message m);
     "topic" := of_opt_str (topic m) ]}.

(** Validation of a request body against the model. [EmailStr] is checked
    by the [email_validator] package, taken as the parameter
    [validate_email], which returns the normalised address. [name] has
    [min_length=2], [message] has [min_length=10] and [max_length=2000]. *)
Definition validate (validate_email : pystr → option pystr) (body : document) : option t :=
  n ← str_field body "name";
  guard (2 ≤ len n);;
  e ← str_field body "email";
  e' ← validate_email e;
  m ← str_field body "message";
  guard (10 ≤ len m);;
  guard (len m ≤ 2000);;
  tp ← opt_str_field body "topic";
  Some {| name := n; email := e'; message := m; topic := tp |}.

End ContactMessage.

Module Subscription.

Record t := {
  email : pystr;
  name : option pystr;
  interests : option (list pystr);
}.

Definition model_dump (b : t) : document :=
  {[ "email" := VStr (email b);
     "name" := of_opt_str (name b);
     "interests" := of_opt_list (interests b) ]}.

Definition validate (validate_email : pystr → option pystr) (body : document) : option t :=
  e ← str_field body "email";
  e' ← validate_email e;
  n ← opt_str_field body "name";
  i ← opt_list_field body "interests";
  Some {| email := e'; name := n; interests := i |}.

End Subscription.

(** ** [main.py] *)

(** *** Utility seeders *)

Definition seed : list CourseCategory.t :=
  [ {| CourseCategory.slug := lit "web-development";
       CourseCategory.title := lit "Web Development";
       CourseCategory.blurb :=
         lit "Build modern, responsive websites and web apps from scratch.";
       CourseCategory.highlights :=
         Some [lit "HTML, CSS, JS"; lit "React & Tailwind"; lit "APIs & Auth"];
       CourseCategory.color := Some (lit "#22c55e");
       CourseCategory.accent := Some (lit "#10b981") |};
    {| CourseCategory.slug := lit "ai-programming";
       CourseCategory.title := lit "AI Programming";
       CourseCategory.blurb :=
         lit "Learn Python for AI, machine learning, and practical LLM apps.";
       CourseCategory.highlights :=
         Some [lit "Python & NumPy"; lit "ML & LLMs"; lit "Model Deployment"];
       CourseCategory.color := Some (lit "#a855f7");
       CourseCategory.accent := Some (lit "#8b5cf6") |};
    {| CourseCategory.slug := lit "robotics";
       CourseCategory.title := lit "Robotics";
       CourseCategory.blurb :=
         lit "Program and control robots with sensors, motion, and autonomy.";
       CourseCategory.highlights :=
         Some [lit "ROS Basics"; lit "Sensors & Control"; lit "Path Planning"];
       CourseCategory.color := Some (lit "#0ea5e9");
       CourseCategory.accent := Some (lit "#38bdf8") |};
    {| CourseCategory.slug := lit "drone";
       CourseCategory.title := lit "Drone Programming";
       CourseCategory.blurb :=
         lit "Build and pilot drones, master flight control and computer vision.";
       CourseCategory.highlights :=
         Some [lit "PX4 & MAVSDK"; lit "Stabilization"; lit "Aerial CV"];
       CourseCategory.color := Some (lit "#22d3ee");
       CourseCategory.accent := Some (lit "#06b6d4") |};
    {| CourseCategory.slug := lit "3d-printing";
       CourseCategory.title := lit "3D Product & Printing";
       CourseCategory.blurb :=
         lit "Design 3D models and turn ideas into physical prototypes.";
       CourseCategory.highlights :=
         Some [lit "Fusion/Blender"; lit "Slicing & Materials"; lit "Rapid Prototyping"];
       CourseCategory.color := Some (lit "#f59e0b");
       CourseCategory.accent := Some (lit "#fbbf24") |} ].

Definition _ensure_categories_seeded : M handle (list document) :=
  none ← db_is_None;
  if (none : bool) then mret []
  else
    n ← count_documents "coursecategory";
    (if n =? 0 then
       let docs := CourseCategory.model_dump <$> seed in
       for_each docs (λ d, create_document "coursecategory" d)
     else mret tt);;
    find "coursecategory".

Definition team : list Staff.t :=
  [ {| Staff.name := lit "Ava Chen";
       Staff.role := lit "Head of AI";
       Staff.bio := Some (lit "Leads our AI track with 8+ years in ML and LLM apps.");
       Staff.avatar := Some (lit "https://i.pravatar.cc/150?img=1");
       Staff.socials := Some [(lit "twitter", lit "https://twitter.com/avachen")] |};
    {| Staff.name := lit "Miguel Torres";
       Staff.role := lit "Robotics Lead";
       Staff.bio := Some (lit "ROS expert building autonomous ground and aerial robots.");
       Staff.avatar := Some (lit "https://i.pravatar.cc/150?img=5");
       Staff.socials := Some [(lit "github", lit "https://github.com/miguelt")] |};
    {| Staff.name := lit "Sara Patel";
       Staff.role := lit "Web Instructor";
       Staff.bio := Some (lit "Front-end engineer focused on React and delightful UX.");
       Staff.avatar := Some (lit "https://i.pravatar.cc/150?img=11");
       Staff.socials := Some [(lit "linkedin", lit "https://linkedin.com/in/sarapatel")] |} ].

Definition _ensure_staff_seeded : M handle (list document) :=
  none ← db_is_None;
  if (none : bool) then mret []
  else
    n ← count_documents "staff";
    (if n =? 0 then
       for_each team (λ member, create_document "staff" (Staff.model_dump member))
     else mret tt);;
    find "staff".

(** *** Models for responses *)

Record MessageResponse := {
  status : pystr;
  detail : pystr;
}.

(** The body [{"items": data}] of the two list routes. *)
Record Items := { items : list document }.

(** *** Routes *)

(** [except Exception as e: raise HTTPException(status_code=500,
    detail=str(e))]. *)
Definition to_500 {A} (e : exn) : M handle A :=
  raise (HTTPException 500 (str e)).

(** [GET /api/categories]. *)
Definition list_categories : M handle Items :=
  try_except
    (data ← _ensure_categories_seeded;
     mret {| items := data |})
    to_500.

(** [not doc] for a document or [None]: [None] and the empty dict are
    false. *)
Definition falsy (doc : option document) : bool :=
  match doc with
  | None => true
  | Some d => bool_decide (d = ∅)
  end.

(** [GET /api/categories/{slug}]. The [except HTTPException: raise] clause
    comes first, every other exception becomes a 500. *)
Definition category_detail (slug : pystr) : M handle document :=
  try_except
    (_ensure_categories_seeded;;
     truthy ← db_bool;
     doc ← (if (truthy : bool) then find_one "coursecategory" "slug" slug
            else mret None);
     match doc with
     | Some d =>
         if falsy doc then raise (HTTPException 404 (lit "Category not found"))
         else mret d
     | None => raise (HTTPException 404 (lit "Category not found"))
     end)
    (λ e, if is_HTTPException e then raise e else to_500 e).

(** [GET /api/staff]. *)
Definition staff_list : M handle Items :=
  try_except
    (data ← _ensure_staff_seeded;
     mret {| items := data |})
    to_500.

(** [POST /api/contact], once the body has been validated. *)
Definition contact (message : ContactMessage.t) : M handle MessageResponse :=
  try_except
    (create_document "contactmessage" (ContactMessage.model_dump message);;
     mret {| status := lit "ok";
             detail := lit "Message received. We'll be in touch!" |})
    to_500.

(** [POST /api/subscribe], once the body has been validated. The two
    calls of [datetime.utcnow()] are the clock readings [now_set] (in
    [$set], evaluated first) and [now_insert] (in [$setOnInsert]). *)
Definition subscribe (body : Subscription.t) (now_set now_insert : N)
    : M handle MessageResponse :=
  try_except
    (none ← db_is_None;
     (if (none : bool) then raise (Exception (lit "Database not available"))
      else mret tt);;
     update_one_upsert "subscription" "email" (Subscription.email body)
       (<["updated_at" := VDatetime now_set]> (Subscription.model_dump body))
       {[ "created_at" := VDatetime now_insert ]};;
     mret {| status := lit "ok"; detail := lit "Subscribed successfully" |})
    to_500.

(** FastAPI's dispatch of [POST /api/contact]: the body is validated
    against [ContactMessage] before the handler runs. *)
Definition post_api_contact (validate_email : pystr → option pystr)
    (body : document) : M handle MessageResponse :=
  match ContactMessage.validate validate_email body with
  | Some message => contact message
  | None => raise RequestValidationError
  end.

(** FastAPI's dispatch of [POST /api/subscribe]. *)
Definition post_api_subscribe (validate_email : pystr → option pystr)
    (body : document) (now_set now_insert : N) : M handle MessageResponse :=
  match Subscription.validate validate_email body with
  | Some b => subscribe b now_set now_insert
  | None => raise RequestValidationError
  end.

(** *** [GET /test] *)

(** The handler fills the local dict [response] step by step; the state of
    its body is the pair of [db] and [response]. *)
Definition on_handle {A} (m : M handle A) : M (handle * document) A :=
  λ '(db, response), let '(r, db') := m db in (r, (db', response)).

(** [response[k] = v]. *)
Definition setitem (k : string) (v : value) : M (handle * document) unit :=
  λ '(db, response), (Return tt, (db, <[k := v]> response)).

(** The truth value of [os.getenv(k)]: set, and not the empty string. *)
Definition getenv_truthy (environ : gmap string pystr) (k : string) : bool :=
  match environ !! k with
  | Some (_ :: _) => true
  | _ => false
  end.

Definition check_mark : pystr := [0x2705].
Definition cross_mark : pystr := [0x274c].
Definition warning_sign : pystr := [0x26a0; 0xfe0f].

(** [s[:50]]. *)
Definition first_50 (s : pystr) : pystr := take 50 s.

Definition test_database (environ : gmap string pystr) : M handle document :=
  λ db,
    let response : document :=
      {[ "backend" := VStr (check_mark ++ lit " Running");
         "database" := VStr (cross_mark ++ lit " Not Available");
         "database_url" := VNone;
         "database_name" := VNone;
         "connection_status" := VStr (lit "Not Connected");
         "collections" := VList [] ]} in
    let body : M (handle * document) unit :=
      try_except
        (none ← on_handle db_is_None;
         if negb none then
           setitem "database" (VStr (check_mark ++ lit " Available"));;
           setitem "database_url"
             (VStr (if getenv_truthy environ "DATABASE_URL"
                    then check_mark ++ lit " Set" else cross_mark ++ lit " Not Set"));;
           setitem "database_name"
             (VStr (if getenv_truthy environ "DATABASE_NAME"
                    then check_mark ++ lit " Set" else cross_mark ++ lit " Not Set"));;
           setitem "connection_status" (VStr (lit "Connected"));;
           try_except
             (collections ← on_handle list_collection_names;
              setitem "collections" (VList (take 10 collections));;
              setitem "database" (VStr (check_mark ++ lit " Connected & Working")))
             (λ e, setitem "database"
                     (VStr (warning_sign ++ lit "  Connected but Error: "
                              ++ first_50 (str e))))
         else mret tt)
        (λ e, setitem "database"
                (VStr (cross_mark ++ lit " Error: " ++ first_50 (str e)))) in
    match body (db, response) with
    | (Return _, (db', response')) => (Return response', db')
    | (Raise e, (db', _)) => (Raise e, db')
    end.

(** The two seed-backed collections, each with its seeder, its list route
    and its seed catalog as the seeder inserts it. *)
Inductive seeded_collection := Categories | StaffMembers.

Definition collection_name (c : seeded_collection) : string :=
  match c with Categories => "coursecategory" | StaffMembers => "staff" end.

Definition ensure_seeded (c : seeded_collection) : M handle (list document) :=
  match c with
  | Categories => _ensure_categories_seeded
  | StaffMembers => _ensure_staff_seeded
  end.

Definition list_call (c : seeded_collection) : M handle Items :=
  match c with Categories => list_categories | StaffMembers => staff_list end.

Definition seed_catalog (c : seeded_collection) : list document :=
  match c with
  | Categories => CourseCategory.model_dump <$> seed
  | StaffMembers => Staff.model_dump <$> team
  end.

Definition seed_count (c : seeded_collection) : nat :=
  match c with Categories => 5 | StaffMembers => 3 end.

(** [category_detail] with the test on [db] of line 136 as a parameter:
    [category_detail] is the instance at [db_bool]. The other handlers
    write the test as a comparison with [None], [db_is_not_None]. *)
Definition category_detail_with (test : M handle bool) (slug : pystr)
    : M handle document :=
  try_except
    (_ensure_categories_seeded;;
     truthy ← test;
     doc ← (if (truthy : bool) then find_one "coursecategory" "slug" slug
            else mret None);
     match doc with
     | Some d =>
         if falsy doc then raise (HTTPException 404 (lit "Category not found"))
         else mret d
     | None => raise (HTTPException 404 (lit "Category not found"))
     end)
    (λ e, if is_HTTPException e then raise e else to_500 e).

(** [db is not None]. *)
Definition db_is_not_None : M handle bool :=
  λ db, (Return (negb (bool_decide (db = None))), db).

(** ** Descriptions of store contents used in the statements *)

(** The documents [docs] as consecutive calls of [insert_one] store them,
    the first under [ObjectId] [n]. *)
Fixpoint stamped (n : N) (docs : list document) : list document :=
  match docs with
  | [] => []
  | doc :: docs' => <["_id" := VObjectId n]> doc :: stamped (N.succ n) docs'
  end.

(** The database after [docs] were inserted one by one into [name]. *)
Fixpoint inserted (name : string) (docs : list document) (d : Database) : Database :=
  match docs with
  | [] => d
  | doc :: docs' =>
      inserted name docs'
        (bump_oid (set_docs name
           (docs_of d name ++ [<["_id" := VObjectId (next_oid d)]> doc]) d))
  end.

(** No document of [docs] carries an [_id] of its own. *)
Definition no_id (docs : list document) : bool :=
  forallb (λ doc : document, bool_decide (doc !! "_id" = None)) docs.

(** The records of the [subscription] collection that the filter
    [{"email": e}] selects. *)
Definition records_for (e : pystr) (d : Database) : list document :=
  List.filter (matches "email" e) (docs_of d "subscription").

(** The [$set] document of [subscribe] as the store keeps it: the body's
    fields and [updated_at] at the millisecond of the clock reading. *)
Definition set_fields (b : Subscription.t) (now_set : N) : document :=
  <["updated_at" := VDatetime (millis now_set)]> (Subscription.model_dump b).

(** The record an upsert of [b] inserts when no record matches. *)
Definition new_subscription (b : Subscription.t) (now_set now_insert oid : N) : document :=
  <["_id" := VObjectId oid]>
    ({[ "created_at" := VDatetime (millis now_insert) ]}
       ∪ (set_fields b now_set ∪ {[ "email" := VStr (Subscription.email b) ]})).

(** One call of [POST /api/subscribe] with its clock readings, and a
    sequence of such calls, one after the other. *)
Record call := {
  body : Subscription.t;
  now_set : N;
  now_insert : N;
}.

Definition subscribe_each (calls : list call) : M handle unit :=
  for_each calls
    (λ c, subscribe (body c) (now_set c) (now_insert c);; mret tt).

Definition subscribed : MessageResponse :=
  {| status := lit "ok"; detail := lit "Subscribed successfully" |}.

(** Every [ObjectId] among [docs] is below [n]: it was generated before
    the driver's counter reached [n]. *)
Definition oids_below (n : N) (docs : list document) : bool :=
  forallb (λ doc : document,
             match doc !! "_id" with
             | Some (VObjectId k) => k <? n
             | _ => true
             end) docs.

Definition empty_store : Database :=
  {| collections := ∅; next_oid := 0; failure := None |}.

Definition one_category_store : Database :=
  {| collections := {[ "coursecategory" := [ {[ "slug" := VStr (lit "cooking") ]} ] ]};
     next_oid := 0;
     failure := None |}.

(** *** Sample inputs for the examples *)

(** A stand-in for [email_validator]: an address needs an ["@"]. *)
Definition has_at_sign (e : pystr) : option pystr :=
  if bool_decide (64 ∈ e) then Some e else None.

Definition ada : pystr := lit "ada@example.org".

Definition first_call : call :=
  {| body := {| Subscription.email := ada;
                Subscription.name := Some (lit "Ada");
                Subscription.interests := Some [lit "robotics"] |};
     now_set := 1000;
     now_insert := 1001 |}.

Definition second_call : call :=
  {| body := {| Subscription.email := ada;
                Subscription.name := Some (lit "Ada L.");
                Subscription.interests := Some [lit "drone"; lit "ai"] |};
     now_set := 2000;
     now_insert := 2001 |}.

(** A store in which [ada] subscribed with a name and interests. *)
Definition ada_subscribed : Database :=
  {| collections :=
       {[ "subscription" :=
            [ new_subscription (body first_call) 1000 1001 0 ] ]};
     next_oid := 1;
     failure := None |}.

(** A body of [POST /api/subscribe] that gives the email only. *)
Definition email_only : document := {[ "email" := VStr ada ]}.

(** A body of [POST /api/contact] without its message. *)
Definition contact_form : document :=
  {[ "name" := VStr (lit "Ada"); "email" := VStr ada ]}.

(** A store that already holds a submission equal to [contact_form]
    with the message ["0123456789"]. *)
Definition contacted_store : Database :=
  {| collections :=
       {[ "contactmessage" :=
            [ <["_id" := VObjectId 0]>
                (ContactMessage.model_dump
                   {| ContactMessage.name := lit "Ada";
                      ContactMessage.email := ada;
                      ContactMessage.message := lit "0123456789";
                      ContactMessage.topic := None |}) ] ]};
     next_oid := 1;
     failure := None |}.

(** A store whose server cannot be reached. *)
Definition unreachable_store (msg : pystr) : Database :=
  {| collections := ∅; next_oid := 0; failure := Some msg |}.

(** *** The application *)

(** [GET /]. *)
Definition root : M handle document :=
  mret {[ "message" := VStr (lit "Programming Courses API is running") ]}.

(** The requests the routes of [app] accept, with what each handler reads
    besides the store: the path parameter, the JSON body, the clock
    readings of [datetime.utcnow()] and the process environment. *)
Inductive request :=
  | GET_root
  | GET_api_categories
  | GET_api_categories_slug (slug : pystr)
  | GET_api_staff
  | POST_api_contact (req : document)
  | POST_api_subscribe (req : document) (now_set now_insert : N)
  | GET_test (environ : gmap string pystr).

(** The bodies the handlers return. *)
Inductive response :=
  | JSONDict (d : document)
  | JSONItems (i : Items)
  | JSONMessage (m : MessageResponse).

(** The value of [m], passed through [f]. *)
Definition returning {St A B} (f : A → B) (m : M St A) : M St B :=
  a ← m; mret (f a).

(** The route table of [app]: each request goes to the handler its
    decorator registers, the two [POST] bodies through their models. *)
Definition serve (validate_email : pystr → option pystr) (rq : request)
    : M handle response :=
  match rq with
  | GET_root => returning JSONDict root
  | GET_api_categories => returning JSONItems list_categories
  | GET_api_categories_slug slug => returning JSONDict (category_detail slug)
  | GET_api_staff => returning JSONItems staff_list
  | POST_api_contact req => returning JSONMessage (post_api_contact validate_email req)
  | POST_api_subscribe req now_set now_insert =>
      returning JSONMessage (post_api_subscribe validate_email req now_set now_insert)
  | GET_test environ => returning JSONDict (test_database environ)
  end.

(** The one collection a request can write to, if any. *)
Definition written_collection (rq : request) : option string :=
  match rq with
  | GET_api_categories | GET_api_categories_slug _ => Some "coursecategory"
  | GET_api_staff => Some "staff"
  | POST_api_contact _ => Some "contactmessage"
  | POST_api_subscribe _ _ _ => Some "subscription"
  | GET_root | GET_test _ => None
  end.

(** No record of [docs] has an array in its [email] field: the filter
    [{"email": e}] then selects a record for one address at most. *)
Definition scalar_emails (docs : list document) : bool :=
  forallb (λ doc : document,
             match doc !! "email" with
             | Some (VList _) => false
             | _ => true
             end) docs.

(** The status dict of [GET /test] before the handler fills it. *)
Definition not_connected : document :=
  {[ "backend" := VStr (check_mark ++ lit " Running");
     "database" := VStr (cross_mark ++ lit " Not Available");
     "database_url" := VNone;
     "database_name" := VNone;
     "connection_status" := VStr (lit "Not Connected");
     "collections" := VList [] ]}.

(** The text [GET /test] reports for an environment variable. *)
Definition set_or_not (environ : gmap string pystr) (k : string) : pystr :=
  if getenv_truthy environ k then check_mark ++ lit " Set"
  else cross_mark ++ lit " Not Set".

(** [d'] differs from [d] at most in the collection [target], and no
    collection of [d'] holds fewer records than in [d]. *)
Definition only_writes (target : option string) (d d' : Database) : Prop :=
  failure d' = failure d
  ∧ (∀ name, target ≠ Some name → docs_of d' name = docs_of d name)
  ∧ ∀ name, (length (docs_of d name) ≤ length (docs_of d' name))%nat.

(** A reachable store whose two seed-backed collections were filled by
    other hands: one category, one staff member, each under an [_id]. *)
Definition foreign_store : Database :=
  {| collections :=
       {[ "coursecategory" :=
            [ {[ "_id" := VObjectId 0; "slug" := VStr (lit "cooking") ]} ];
          "staff" :=
            [ {[ "_id" := VObjectId 1; "name" := VStr (lit "Grace") ]} ] ]};
     next_oid := 2;
     failure := None |}.

(** * Properties *)

(** ** The monad *)

Section monad_laws.
Context {St A B : Type}.

Lemma bind_Return (m : M St A) (f : A → M St B) s a s' :
  m s = (Return a, s') → (m ≫= f) s = f a s'.
Proof. intros H. unfold mbind, M_bind. by rewrite H. Qed.

Lemma bind_Raise (m : M St A) (f : A → M St B) s e s' :
  m s = (Raise e, s') → (m ≫= f) s = (Raise e, s').
Proof. intros H. unfold mbind, M_bind. by rewrite H. Qed.

Lemma try_except_Return (m : M St A) h s a s' :
  m s = (Return a, s') → try_except m h s = (Return a, s').
Proof. intros H. unfold try_except. by rewrite H. Qed.

Lemma try_except_Raise (m : M St A) h s e s' :
  m s = (Raise e, s') → try_except m h s = h e s'.
Proof. intros H. unfold try_except. by rewrite H. Qed.

End monad_laws.

(** ** The store *)

Lemma docs_of_set_docs name docs d : docs_of (set_docs name docs d) name = docs.
Proof. unfold docs_of, set_docs; simpl. by rewrite lookup_insert_eq. Qed.

Lemma docs_of_set_docs_ne name name' docs d :
  name ≠ name' → docs_of (set_docs name docs d) name' = docs_of d name'.
Proof. intros. unfold docs_of, set_docs; simpl. by rewrite lookup_insert_ne. Qed.

Lemma docs_of_bump_oid d name : docs_of (bump_oid d) name = docs_of d name.
Proof. done. Qed.

Lemma on_db_healthy {A} exn0 (op : Database → A * Database) d :
  failure d = None →
  on_db exn0 op (Some d) = (Return (op d).1, Some (op d).2).
Proof. intros H. unfold on_db. rewrite H. by destruct (op d). Qed.

Lemma on_db_failing {A} exn0 (op : Database → A * Database) d msg :
  failure d = Some msg →
  on_db exn0 op (Some d) = (Raise (PyMongoError msg), Some d).
Proof. intros H. unfold on_db. by rewrite H. Qed.

(** ** Degraded mode: no database configured *)

(** C5. With [db] absent, the category list and the staff list both answer
    [{"items": []}] and raise nothing. *)
Theorem list_routes_without_database (c : seeded_collection) :
  list_call c None = (Return {| items := [] |}, None).
Proof. by destruct c. Qed.

(** C9. With [db] absent, category detail raises [HTTPException(404,
    "Category not found")] for every slug, whether or not the seed catalog
    has it. *)
Theorem category_detail_without_database (slug : pystr) :
  category_detail slug None
  = (Raise (HTTPException 404 (lit "Category not found")), None).
Proof. reflexivity. Qed.

(** ** Inserting documents *)

Lemma db_is_None_Some d : db_is_None (Some d) = (Return false, Some d).
Proof. done. Qed.

Lemma count_documents_healthy name d :
  failure d = None →
  count_documents name (Some d) = (Return (N.of_nat (length (docs_of d name))), Some d).
Proof. intros H. unfold count_documents. by rewrite on_db_healthy. Qed.

Lemma find_healthy name d :
  failure d = None →
  find name (Some d) = (Return (delete "_id" <$> docs_of d name), Some d).
Proof. intros H. unfold find. by rewrite on_db_healthy. Qed.

Lemma create_document_healthy name doc d :
  failure d = None → doc !! "_id" = None →
  create_document name doc (Some d)
  = (Return tt, Some (bump_oid (set_docs name
       (docs_of d name ++ [<["_id" := VObjectId (next_oid d)]> doc]) d))).
Proof.
  intros Hf Hid. unfold create_document.
  rewrite (bind_Return _ _ _ _ _ (db_is_None_Some d)).
  unfold insert_one. rewrite on_db_healthy by done. by rewrite Hid.
Qed.

Lemma failure_inserted name docs d : failure (inserted name docs d) = failure d.
Proof. revert d. induction docs as [|doc docs IH]; intros d; [done|]. simpl. by rewrite IH. Qed.

Lemma next_oid_inserted name docs d :
  next_oid (inserted name docs d) = next_oid d + N.of_nat (length docs).
Proof.
  revert d. induction docs as [|doc docs IH]; intros d; simpl.
  - lia.
  - rewrite IH. simpl. lia.
Qed.

Lemma docs_of_inserted name docs d :
  docs_of (inserted name docs d) name = docs_of d name ++ stamped (next_oid d) docs.
Proof.
  revert d. induction docs as [|doc docs IH]; intros d; simpl.
  - by rewrite app_nil_r.
  - rewrite IH, docs_of_bump_oid, docs_of_set_docs. simpl. by rewrite <- app_assoc.
Qed.

Lemma docs_of_inserted_ne name name' docs d :
  name ≠ name' → docs_of (inserted name docs d) name' = docs_of d name'.
Proof.
  intros Hne. revert d. induction docs as [|doc docs IH]; intros d; simpl; [done|].
  by rewrite IH, docs_of_bump_oid, docs_of_set_docs_ne.
Qed.

Lemma length_stamped n docs : length (stamped n docs) = length docs.
Proof. revert n. induction docs as [|doc docs IH]; intros n; simpl; [done|]. by rewrite IH. Qed.

Lemma unstamp n docs :
  no_id docs = true → delete "_id" <$> stamped n docs = docs.
Proof.
  revert n. induction docs as [|doc docs IH]; intros n Hno; simpl in *; [done|].
  apply andb_prop in Hno as [Hdoc Hdocs]. apply bool_decide_eq_true in Hdoc.
  rewrite IH by done. f_equal.
  rewrite delete_insert_eq. by apply delete_id.
Qed.

Lemma for_each_create_document name docs d :
  failure d = None → no_id docs = true →
  for_each docs (λ doc, create_document name doc) (Some d)
  = (Return tt, Some (inserted name docs d)).
Proof.
  revert d. induction docs as [|doc docs IH]; intros d Hf Hno; simpl in *; [done|].
  apply andb_prop in Hno as [Hdoc Hdocs]. apply bool_decide_eq_true in Hdoc.
  rewrite (bind_Return _ _ _ _ _ (create_document_healthy name doc d Hf Hdoc)).
  by apply IH.
Qed.

Lemma for_each_fmap {St A B} (g : A → B) (f : B → M St unit) xs :
  for_each (g <$> xs) f = for_each xs (λ x, f (g x)).
Proof. induction xs as [|x xs IH]; [done|]. rewrite fmap_cons. cbn [for_each]. by rewrite IH. Qed.

(** ** Seeding *)

Lemma seed_catalog_no_id c : no_id (seed_catalog c) = true.
Proof. destruct c; vm_compute; reflexivity. Qed.

Lemma seed_catalog_length c : length (seed_catalog c) = seed_count c.
Proof. by destruct c. Qed.

Lemma ensure_seeded_failing c d msg :
  failure d = Some msg →
  ensure_seeded c (Some d) = (Raise (PyMongoError msg), Some d).
Proof.
  intros Hf.
  destruct c; unfold ensure_seeded, _ensure_categories_seeded, _ensure_staff_seeded;
    rewrite (bind_Return _ _ _ _ _ (db_is_None_Some d)); simpl;
    apply bind_Raise; unfold count_documents; by apply on_db_failing.
Qed.

Lemma ensure_seeded_nonempty c d :
  failure d = None → docs_of d (collection_name c) ≠ [] →
  ensure_seeded c (Some d)
  = (Return (delete "_id" <$> docs_of d (collection_name c)), Some d).
Proof.
  intros Hf Hne.
  assert ((N.of_nat (length (docs_of d (collection_name c))) =? 0) = false) as Hcount.
  { apply N.eqb_neq. destruct (docs_of d (collection_name c)); [done|]. simpl. lia. }
  destruct c; unfold ensure_seeded, _ensure_categories_seeded, _ensure_staff_seeded;
    rewrite (bind_Return _ _ _ _ _ (db_is_None_Some d)); simpl;
    rewrite (bind_Return _ _ _ _ _ (count_documents_healthy _ d Hf));
    simpl in Hcount; rewrite Hcount;
    (erewrite bind_Return; [|reflexivity]); by apply find_healthy.
Qed.

Lemma ensure_seeded_empty c d :
  failure d = None → docs_of d (collection_name c) = [] →
  ensure_seeded c (Some d)
  = (Return (seed_catalog c),
     Some (inserted (collection_name c) (seed_catalog c) d)).
Proof.
  intros Hf Hempty.
  pose proof (for_each_create_document (collection_name c) (seed_catalog c) d
                Hf (seed_catalog_no_id c)) as Hloop.
  assert (find (collection_name c)
            (Some (inserted (collection_name c) (seed_catalog c) d))
          = (Return (seed_catalog c),
             Some (inserted (collection_name c) (seed_catalog c) d))) as Hfind.
  { rewrite find_healthy by by rewrite failure_inserted.
    rewrite docs_of_inserted, Hempty. simpl.
    by rewrite unstamp by apply seed_catalog_no_id. }
  destruct c; unfold ensure_seeded, _ensure_categories_seeded, _ensure_staff_seeded;
    rewrite (bind_Return _ _ _ _ _ (db_is_None_Some d)); cbv beta iota;
    rewrite (bind_Return _ _ _ _ _ (count_documents_healthy _ d Hf));
    cbv beta; unfold collection_name in Hempty; rewrite Hempty;
    change (N.of_nat (length (@nil document)) =? 0) with true; cbv iota zeta.
  - erewrite bind_Return; [exact Hfind | exact Hloop].
  - unfold seed_catalog in Hloop. rewrite for_each_fmap in Hloop.
    erewrite bind_Return; [exact Hfind | exact Hloop].
Qed.

Lemma list_call_Return c db data db' :
  ensure_seeded c db = (Return data, db') →
  list_call c db = (Return {| items := data |}, db').
Proof.
  intros H. destruct c; unfold list_call, list_categories, staff_list;
    apply try_except_Return; by rewrite (bind_Return _ _ _ _ _ H).
Qed.

Lemma list_call_Raise c db e db' :
  ensure_seeded c db = (Raise e, db') →
  list_call c db = (Raise (HTTPException 500 (str e)), db').
Proof.
  intros H. destruct c; unfold list_call, list_categories, staff_list;
    (erewrite try_except_Raise; [reflexivity|]); by apply bind_Raise.
Qed.

(** C2. On a reachable store whose seed-backed collection is empty, the
    first list call inserts the N records of the seed catalog (5
    categories, 3 staff members), in order and each under a fresh [_id],
    and returns these N records; a second list call returns the same N
    records and leaves the store as it is. *)
Theorem first_list_call_seeds_once (c : seeded_collection) (d : Database) :
  failure d = None →
  docs_of d (collection_name c) = [] →
  let d1 := inserted (collection_name c) (seed_catalog c) d in
  list_call c (Some d) = (Return {| items := seed_catalog c |}, Some d1)
  ∧ docs_of d1 (collection_name c) = stamped (next_oid d) (seed_catalog c)
  ∧ length (docs_of d1 (collection_name c)) = seed_count c
  ∧ length (seed_catalog c) = seed_count c
  ∧ list_call c (Some d1) = (Return {| items := seed_catalog c |}, Some d1).
Proof.
  intros Hf Hempty d1.
  assert (docs_of d1 (collection_name c) = stamped (next_oid d) (seed_catalog c)) as Hdocs.
  { unfold d1. by rewrite docs_of_inserted, Hempty. }
  split_and!.
  - apply list_call_Return. by apply ensure_seeded_empty.
  - done.
  - by rewrite Hdocs, length_stamped, seed_catalog_length.
  - apply seed_catalog_length.
  - apply list_call_Return. rewrite ensure_seeded_nonempty.
    + by rewrite Hdocs, unstamp by apply seed_catalog_no_id.
    + unfold d1. by rewrite failure_inserted.
    + rewrite Hdocs. by destruct c.
Qed.

Lemma first_list_call_seeds_once_witness :
  list_call StaffMembers (Some empty_store)
  = (Return {| items := seed_catalog StaffMembers |},
     Some (inserted "staff" (seed_catalog StaffMembers) empty_store)).
Proof.
  exact (proj1 (first_list_call_seeds_once StaffMembers empty_store
                  eq_refl eq_refl)).
Defined.

(** C3. When the collection already holds at least one record, the seeder
    inserts nothing: the store is left exactly as it was, and the call
    returns the current contents (without [_id]); on an unreachable store
    it raises the store's error, again without a write. *)
Theorem ensure_seeded_nonempty_no_insert (c : seeded_collection) (d : Database) :
  docs_of d (collection_name c) ≠ [] →
  ensure_seeded c (Some d)
  = (match failure d with
     | None => Return (delete "_id" <$> docs_of d (collection_name c))
     | Some msg => Raise (PyMongoError msg)
     end, Some d).
Proof.
  intros Hne. destruct (failure d) as [msg|] eqn:Hf.
  - by apply ensure_seeded_failing.
  - by apply ensure_seeded_nonempty.
Qed.

Lemma ensure_seeded_nonempty_no_insert_witness :
  ensure_seeded Categories (Some one_category_store)
  = (Return [ {[ "slug" := VStr (lit "cooking") ]} ], Some one_category_store).
Proof.
  exact (ensure_seeded_nonempty_no_insert Categories one_category_store
           ltac:(discriminate)).
Defined.

(** ** Category detail *)

Lemma ensure_seeded_healthy c d :
  failure d = None →
  ∃ docs d', ensure_seeded c (Some d) = (Return docs, Some d').
Proof.
  intros Hf. destruct (docs_of d (collection_name c)) as [|doc docs] eqn:Hdocs.
  - eexists _, _. by apply ensure_seeded_empty.
  - eexists _, _. apply ensure_seeded_nonempty; [done|]. by rewrite Hdocs.
Qed.

(** C4. With a database configured, category detail answers 500 for every
    slug: after the seeder has run, the guard [if db] asks the pymongo
    [Database] for its truth value, which raises [NotImplementedError];
    the handler turns that into [HTTPException(500)]. Neither the seeded
    record nor the 404 of a missing slug is ever reached. *)
Theorem category_detail_with_database_500 (slug : pystr) (d : Database) :
  ∃ detail d',
    category_detail slug (Some d) = (Raise (HTTPException 500 detail), Some d').
Proof.
  unfold category_detail. destruct (failure d) as [msg|] eqn:Hf.
  - exists msg, d. erewrite try_except_Raise.
    2: { apply bind_Raise. by apply (ensure_seeded_failing Categories). }
    reflexivity.
  - destruct (ensure_seeded_healthy Categories d Hf) as (docs & d' & Hseed).
    eexists _, d'. erewrite try_except_Raise.
    2: { erewrite bind_Return; [|exact Hseed]. by apply bind_Raise. }
    reflexivity.
Qed.

(** ** The diagnostic route *)

(** C8. [GET /test] returns its status dict for every environment and
    every [db] (absent, reachable, or raising on each operation) and never
    raises; it has the six keys, leaves the store alone, and a store error
    appears in ["database"] cut to its first 50 characters. *)
Theorem test_database_never_raises (environ : gmap string pystr) (db : handle) :
  ∃ response : document,
    test_database environ db = (Return response, db)
    ∧ dom response
      = {[ "backend"; "database"; "database_url"; "database_name";
           "connection_status"; "collections" ]}
    ∧ response !! "database"
      = Some (VStr
          match db with
          | None => cross_mark ++ lit " Not Available"
          | Some d =>
              match failure d with
              | Some msg =>
                  warning_sign ++ lit "  Connected but Error: " ++ first_50 msg
              | None => check_mark ++ lit " Connected & Working"
              end
          end)
    ∧ ∀ msg, (length (first_50 msg) ≤ 50)%nat.
Proof.
  assert (∀ msg, (length (first_50 msg) ≤ 50)%nat) as Hcut.
  { intros msg. unfold first_50. rewrite length_take. lia. }
  destruct db as [d|].
  - destruct (failure d) as [msg|] eqn:Hf.
    + eexists. split_and!; [|  | |done].
      * unfold test_database, try_except, on_handle, list_collection_names, on_db,
          mbind, M_bind, db_is_None, setitem. simpl. rewrite Hf. simpl. reflexivity.
      * set_solver.
      * by simplify_map_eq.
    + eexists. split_and!; [|  | |done].
      * unfold test_database, try_except, on_handle, list_collection_names, on_db,
          mbind, M_bind, db_is_None, setitem. simpl. rewrite Hf. simpl. reflexivity.
      * set_solver.
      * by simplify_map_eq.
  - eexists. split_and!; [reflexivity| | |done].
    + set_solver.
    + by simplify_map_eq.
Qed.

(** ** Subscriptions *)

Section update_first.
Context (p : document → bool) (f : document → document).
Hypothesis f_keeps_p : ∀ doc, p (f doc) = true.

Lemma update_first_None docs :
  update_first p f docs = None ↔ List.filter p docs = [].
Proof.
  induction docs as [|doc docs IH]; simpl; [done|].
  destruct (p doc); [done|]. rewrite <- IH.
  by destruct (update_first p f docs).
Qed.

Lemma filter_update_first docs docs' :
  update_first p f docs = Some docs' →
  List.filter p docs'
  = match List.filter p docs with
    | r :: rs => f r :: rs
    | [] => []
    end.
Proof.
  revert docs'. induction docs as [|doc docs IH]; intros docs' H; simpl in *; [done|].
  destruct (p doc) eqn:Hp.
  - injection H as <-. simpl. by rewrite f_keeps_p.
  - destruct (update_first p f docs) as [docs0|]; [|done].
    injection H as <-. simpl. rewrite Hp. by apply IH.
Qed.

End update_first.

Lemma set_fields_lookup b t :
  set_fields b t !! "email" = Some (VStr (Subscription.email b))
  ∧ set_fields b t !! "name" = Some (of_opt_str (Subscription.name b))
  ∧ set_fields b t !! "interests" = Some (of_opt_list (Subscription.interests b))
  ∧ set_fields b t !! "updated_at" = Some (VDatetime (millis t))
  ∧ set_fields b t !! "created_at" = None
  ∧ set_fields b t !! "_id" = None.
Proof. unfold set_fields, Subscription.model_dump. by simplify_map_eq. Qed.

(** The fields an upsert of [b] leaves in the record it updates. *)
Lemma updated_record_fields b t (r : document) :
  (set_fields b t ∪ r) !! "email" = Some (VStr (Subscription.email b))
  ∧ (set_fields b t ∪ r) !! "name" = Some (of_opt_str (Subscription.name b))
  ∧ (set_fields b t ∪ r) !! "interests" = Some (of_opt_list (Subscription.interests b))
  ∧ (set_fields b t ∪ r) !! "updated_at" = Some (VDatetime (millis t))
  ∧ (set_fields b t ∪ r) !! "created_at" = r !! "created_at"
  ∧ (set_fields b t ∪ r) !! "_id" = r !! "_id".
Proof.
  destruct (set_fields_lookup b t) as (He & Hn & Hi & Hu & Hc & Hid).
  split_and!; first [by apply lookup_union_Some_l | by apply lookup_union_r].
Qed.

(** The fields of the record an upsert of [b] inserts. *)
Lemma new_subscription_fields b t t' oid :
  new_subscription b t t' oid !! "email" = Some (VStr (Subscription.email b))
  ∧ new_subscription b t t' oid !! "name" = Some (of_opt_str (Subscription.name b))
  ∧ new_subscription b t t' oid !! "interests"
    = Some (of_opt_list (Subscription.interests b))
  ∧ new_subscription b t t' oid !! "updated_at" = Some (VDatetime (millis t))
  ∧ new_subscription b t t' oid !! "created_at" = Some (VDatetime (millis t'))
  ∧ new_subscription b t t' oid !! "_id" = Some (VObjectId oid).
Proof.
  unfold new_subscription, set_fields, Subscription.model_dump.
  by simplify_map_eq.
Qed.

Lemma matches_set_fields b t doc :
  matches "email" (Subscription.email b) (set_fields b t ∪ doc) = true.
Proof.
  unfold matches.
  rewrite (lookup_union_Some_l _ _ _ _ (proj1 (set_fields_lookup b t))).
  by apply bool_decide_eq_true.
Qed.

Lemma matches_new_subscription b t t' oid :
  matches "email" (Subscription.email b) (new_subscription b t t' oid) = true.
Proof.
  unfold matches, new_subscription, set_fields, Subscription.model_dump.
  simplify_map_eq. by apply bool_decide_eq_true.
Qed.

Lemma bson_set_fields b t :
  bson <$> <["updated_at" := VDatetime t]> (Subscription.model_dump b)
  = set_fields b t.
Proof.
  unfold set_fields, Subscription.model_dump.
  rewrite !fmap_insert, map_fmap_singleton. simpl.
  by destruct (Subscription.name b), (Subscription.interests b).
Qed.

Lemma bson_created_at t' :
  bson <$> ({[ "created_at" := VDatetime t' ]} : document)
  = {[ "created_at" := VDatetime (millis t') ]}.
Proof. by rewrite map_fmap_singleton. Qed.

Lemma millis_le t : millis t ≤ t.
Proof. unfold millis. apply N.Div0.mul_div_le. Qed.

Lemma millis_mono t1 t2 : t1 ≤ t2 → millis t1 ≤ millis t2.
Proof.
  intros H. unfold millis. apply N.mul_le_mono_l. by apply N.Div0.div_le_mono.
Qed.

Lemma millis_apart t1 t2 : t1 + 1000 ≤ t2 → millis t1 < millis t2.
Proof.
  intros H. unfold millis. apply N.mul_lt_mono_pos_l; [done|].
  apply N.lt_le_trans with (t1 / 1000 + 1).
  - lia.
  - replace (t1 / 1000 + 1) with ((t1 + 1 * 1000) / 1000)
      by (by rewrite N.div_add).
    apply N.Div0.div_le_mono. lia.
Qed.

(** One upsert on a reachable store returns, leaves the store reachable
    and the other collections alone, and rewrites the first record the
    filter selects or, when it selects none, appends the new record. *)
Lemma subscribe_healthy_docs b t t' d :
  failure d = None →
  ∃ d',
    subscribe b t t' (Some d) = (Return subscribed, Some d')
    ∧ failure d' = None
    ∧ docs_of d' "subscription"
      = match update_first (matches "email" (Subscription.email b))
                (λ doc, set_fields b t ∪ doc) (docs_of d "subscription") with
        | Some docs' => docs'
        | None =>
            docs_of d "subscription" ++ [new_subscription b t t' (next_oid d)]
        end.
Proof.
  intros Hf.
  assert (∀ d', update_one_upsert "subscription" "email" (Subscription.email b)
                  (<["updated_at" := VDatetime t]> (Subscription.model_dump b))
                  {[ "created_at" := VDatetime t' ]} (Some d)
                = (Return tt, Some d') →
                subscribe b t t' (Some d) = (Return subscribed, Some d')) as Hrun.
  { intros d' Hupd. unfold subscribe. apply try_except_Return.
    rewrite (bind_Return _ _ _ _ _ (db_is_None_Some d)). cbv beta iota.
    erewrite bind_Return; [|reflexivity].
    erewrite bind_Return; [reflexivity|exact Hupd]. }
  unfold update_one_upsert in Hrun. rewrite on_db_healthy in Hrun by done.
  rewrite bson_set_fields, bson_created_at in Hrun.
  destruct (update_first _ _ (docs_of d "subscription")) as [docs'|].
  - eexists. split_and!; [by apply Hrun|done|]. cbn [snd]. by rewrite docs_of_set_docs.
  - eexists. split_and!; [by apply Hrun|done|]. cbn [snd].
    by rewrite docs_of_bump_oid, docs_of_set_docs.
Qed.

(** The same, read on the records of the submitted email: the first one
    takes the submitted fields, or, when there is none, the new record is
    the only one. *)
Lemma subscribe_healthy b t t' d :
  failure d = None →
  ∃ d',
    subscribe b t t' (Some d) = (Return subscribed, Some d')
    ∧ failure d' = None
    ∧ records_for (Subscription.email b) d'
      = match records_for (Subscription.email b) d with
        | r :: rs => (set_fields b t ∪ r) :: rs
        | [] => [new_subscription b t t' (next_oid d)]
        end.
Proof.
  intros Hf. destruct (subscribe_healthy_docs b t t' d Hf) as (d' & Hcall & Hf' & Hdocs).
  exists d'. split_and!; [done|done|]. unfold records_for. rewrite Hdocs.
  pose proof (update_first_None (matches "email" (Subscription.email b))
                (λ doc, set_fields b t ∪ doc) (docs_of d "subscription")) as Hnone.
  pose proof (filter_update_first (matches "email" (Subscription.email b))
                (λ doc, set_fields b t ∪ doc) (matches_set_fields b t)
                (docs_of d "subscription")) as Hsome.
  destruct (update_first _ _ (docs_of d "subscription")) as [docs'|].
  - rewrite (Hsome _ eq_refl).
    destruct (List.filter _ (docs_of d "subscription")); [|done].
    discriminate (proj2 Hnone eq_refl).
  - rewrite List.filter_app, (proj1 Hnone eq_refl). simpl.
    by rewrite matches_new_subscription.
Qed.

Lemma filter_update_first_other (p q : document → bool) f docs docs' :
  (∀ doc, q (f doc) = false) →
  update_first p f docs = Some docs' →
  (length (List.filter q docs') ≤ length (List.filter q docs))%nat.
Proof.
  intros Hq. revert docs'.
  induction docs as [|doc docs IH]; intros docs' H; simpl in *; [done|].
  destruct (p doc).
  - injection H as <-. simpl. rewrite Hq. destruct (q doc); simpl; lia.
  - destruct (update_first p f docs) as [docs0|]; [|done].
    injection H as <-. simpl. specialize (IH _ eq_refl).
    destruct (q doc); simpl; lia.
Qed.

(** The invariant of the [subscription] collection, at most one record
    per email, holds of the empty collection and is kept by every
    subscribe call, whatever its outcome. *)
Lemma one_record_per_email_kept b t t' d :
  (∀ e, (length (records_for e d) ≤ 1)%nat) →
  ∃ r d',
    subscribe b t t' (Some d) = (r, Some d')
    ∧ ∀ e, (length (records_for e d') ≤ 1)%nat.
Proof.
  intros Hinv. destruct (failure d) as [msg|] eqn:Hf.
  - exists (Raise (HTTPException 500 msg)), d. split; [|done].
    unfold subscribe. erewrite try_except_Raise.
    2: { rewrite (bind_Return _ _ _ _ _ (db_is_None_Some d)). cbv beta iota.
         erewrite bind_Return; [|reflexivity].
         apply bind_Raise. unfold update_one_upsert. by apply on_db_failing. }
    reflexivity.
  - destruct (subscribe_healthy_docs b t t' d Hf) as (d' & Hcall & _ & Hdocs).
    destruct (subscribe_healthy b t t' d Hf) as (d'' & Hcall' & _ & Hrec).
    rewrite Hcall in Hcall'. injection Hcall' as <-.
    exists (Return subscribed), d'. split; [done|]. intros e.
    destruct (decide (e = Subscription.email b)) as [->|Hne].
    + rewrite Hrec. specialize (Hinv (Subscription.email b)).
      by destruct (records_for (Subscription.email b) d).
    + assert (∀ doc, matches "email" e (set_fields b t ∪ doc) = false) as Hset.
      { intros doc. unfold matches.
        rewrite (lookup_union_Some_l _ _ _ _ (proj1 (set_fields_lookup b t))).
        by apply bool_decide_eq_false. }
      assert (matches "email" e (new_subscription b t t' (next_oid d)) = false) as Hnew.
      { unfold matches.
        rewrite (proj1 (new_subscription_fields b t t' (next_oid d))).
        by apply bool_decide_eq_false. }
      specialize (Hinv e). unfold records_for in *. rewrite Hdocs.
      destruct (update_first _ _ (docs_of d "subscription")) as [docs'|] eqn:Hupd.
      * pose proof (filter_update_first_other _ (matches "email" e) _ _ _ Hset Hupd).
        lia.
      * rewrite List.filter_app. simpl. rewrite Hnew, app_nil_r. done.
Qed.

Lemma one_record_per_email_empty d :
  docs_of d "subscription" = [] →
  ∀ e, (length (records_for e d) ≤ 1)%nat.
Proof. intros Hempty e. unfold records_for. rewrite Hempty. simpl. lia. Qed.

Lemma subscribe_each_cons c calls db :
  subscribe_each (c :: calls) db
  = match subscribe (body c) (now_set c) (now_insert c) db with
    | (Return _, db') => subscribe_each calls db'
    | (Raise e, db') => (Raise e, db')
    end.
Proof.
  unfold subscribe_each. cbn [for_each]. unfold mbind, M_bind.
  by destruct (subscribe _ _ _ db) as [[?|?] ?].
Qed.

(** Further upserts for an email that already has a first record [r]
    keep rewriting that record: its [created_at] stays, the other fields
    are those of the last call, the records after it are untouched. *)
Lemma subscribe_each_existing e calls : ∀ d r rs,
  failure d = None →
  Forall (λ c, Subscription.email (body c) = e) calls →
  records_for e d = r :: rs →
  ∃ d' r',
    subscribe_each calls (Some d) = (Return tt, Some d')
    ∧ failure d' = None
    ∧ records_for e d' = r' :: rs
    ∧ r' !! "created_at" = r !! "created_at"
    ∧ match last calls with
      | None => r' = r
      | Some cn =>
          r' !! "email" = Some (VStr e)
          ∧ r' !! "name" = Some (of_opt_str (Subscription.name (body cn)))
          ∧ r' !! "interests" = Some (of_opt_list (Subscription.interests (body cn)))
          ∧ r' !! "updated_at" = Some (VDatetime (millis (now_set cn)))
      end.
Proof.
  induction calls as [|c calls IH]; intros d r rs Hf Hsame Hrec.
  - by exists d, r.
  - apply Forall_cons in Hsame as [He Hsame].
    destruct (subscribe_healthy (body c) (now_set c) (now_insert c) d Hf)
      as (d1 & Hcall & Hf1 & Hrec1).
    rewrite He, Hrec in Hrec1.
    destruct (IH d1 _ rs Hf1 Hsame Hrec1) as (d' & r' & Hrun & Hf' & Hrec' & Hcreated & Hlast).
    destruct (updated_record_fields (body c) (now_set c) r)
      as (Fe & Fn & Fi & Fu & Fc & _).
    exists d', r'. split_and!; try done.
    + by rewrite subscribe_each_cons, Hcall.
    + by rewrite Hcreated.
    + rewrite last_cons. destruct (last calls) as [cn|]; [done|].
      subst r'. by rewrite <- He.
Qed.

(** C1. From a reachable store that holds at most one record for the
    email, any non-empty sequence of subscribe calls with that email
    completes and leaves exactly one record for it. That record carries
    the email, name and interests of the last call, its [created_at] is
    the one observed after the first call, and its [updated_at] is the
    clock reading of the last call cut to its millisecond, as the one
    after the first call is the first call's: it advances only when the
    last call falls in a later millisecond than the first. *)
Theorem subscribe_one_record_per_email
    (e : pystr) (c1 : call) (calls : list call) (d : Database) :
  failure d = None →
  Forall (λ c, Subscription.email (body c) = e) (c1 :: calls) →
  (length (records_for e d) ≤ 1)%nat →
  let cn := default c1 (last calls) in
  ∃ d1 dn r1 rn,
    subscribe_each [c1] (Some d) = (Return tt, Some d1)
    ∧ subscribe_each (c1 :: calls) (Some d) = (Return tt, Some dn)
    ∧ records_for e d1 = [r1]
    ∧ records_for e dn = [rn]
    ∧ rn !! "email" = Some (VStr e)
    ∧ rn !! "name" = Some (of_opt_str (Subscription.name (body cn)))
    ∧ rn !! "interests" = Some (of_opt_list (Subscription.interests (body cn)))
    ∧ rn !! "created_at" = r1 !! "created_at"
    ∧ r1 !! "updated_at" = Some (VDatetime (millis (now_set c1)))
    ∧ rn !! "updated_at" = Some (VDatetime (millis (now_set cn))).
Proof.
  intros Hf Hsame Hle cn.
  apply Forall_cons in Hsame as [He Hsame].
  destruct (subscribe_healthy (body c1) (now_set c1) (now_insert c1) d Hf)
    as (d1 & Hcall & Hf1 & Hrec1).
  rewrite He in Hrec1.
  assert (∃ r1, records_for e d1 = [r1]
                ∧ r1 !! "email" = Some (VStr e)
                ∧ r1 !! "name" = Some (of_opt_str (Subscription.name (body c1)))
                ∧ r1 !! "interests" = Some (of_opt_list (Subscription.interests (body c1)))
                ∧ r1 !! "updated_at" = Some (VDatetime (millis (now_set c1))))
    as (r1 & Hr1 & F1e & F1n & F1i & F1u).
  { destruct (records_for e d) as [|r [|r' rs]]; [| |simpl in Hle; lia].
    - eexists. split; [exact Hrec1|].
      destruct (new_subscription_fields (body c1) (now_set c1) (now_insert c1)
                  (next_oid d)) as (? & ? & ? & ? & _).
      by rewrite <- He.
    - eexists. split; [exact Hrec1|].
      destruct (updated_record_fields (body c1) (now_set c1) r) as (? & ? & ? & ? & _).
      by rewrite <- He. }
  destruct (subscribe_each_existing e calls d1 r1 [] Hf1 Hsame Hr1)
    as (dn & rn & Hrun & _ & Hrn & Hcreated & Hlast).
  assert (rn !! "email" = Some (VStr e)
          ∧ rn !! "name" = Some (of_opt_str (Subscription.name (body cn)))
          ∧ rn !! "interests" = Some (of_opt_list (Subscription.interests (body cn)))
          ∧ rn !! "updated_at" = Some (VDatetime (millis (now_set cn))))
    as (Fe & Fn & Fi & Fu).
  { unfold cn. destruct (last calls) as [c|]; simpl; [done|]. by subst rn. }
  exists d1, dn, r1, rn. split_and!; try done.
  - by rewrite subscribe_each_cons, Hcall.
  - by rewrite subscribe_each_cons, Hcall.
Qed.

Lemma subscribe_one_record_per_email_witness :
  ∃ dn rn,
    subscribe_each [first_call; second_call] (Some empty_store) = (Return tt, Some dn)
    ∧ records_for ada dn = [rn]
    ∧ rn !! "name" = Some (VStr (lit "Ada L."))
    ∧ rn !! "created_at" = Some (VDatetime 1000)
    ∧ rn !! "updated_at" = Some (VDatetime 2000).
Proof.
  destruct (subscribe_one_record_per_email ada first_call [second_call] empty_store)
    as (d1 & dn & r1 & rn & H1 & Hn & Hr1 & Hrn & _ & Hname & _ & Hc & _ & Hu).
  - reflexivity.
  - repeat constructor.
  - vm_compute. lia.
  - exists dn, rn. split_and!; try done.
    rewrite Hc. vm_compute in H1. injection H1 as <-.
    vm_compute in Hr1. by injection Hr1 as <-.
Defined.

(** Two submissions for one email with different names and interests,
    the second 999 microseconds after the first: both complete, the one
    record has the second submission's name, and its [updated_at] is what
    it was after the first. *)
Lemma subscribe_updated_at_same_millisecond :
  ∃ d1 d2 r1 r2,
    subscribe (body first_call) 1000 1001 (Some empty_store)
    = (Return subscribed, Some d1)
    ∧ subscribe (body second_call) 1999 1999 (Some d1)
      = (Return subscribed, Some d2)
    ∧ records_for ada d1 = [r1]
    ∧ records_for ada d2 = [r2]
    ∧ r1 !! "name" = Some (VStr (lit "Ada"))
    ∧ r2 !! "name" = Some (VStr (lit "Ada L."))
    ∧ r1 !! "updated_at" = Some (VDatetime 1000)
    ∧ r2 !! "updated_at" = Some (VDatetime 1000).
Proof.
  eexists _, _, _, _.
  split; [vm_compute; reflexivity|].
  split; [vm_compute; reflexivity|].
  split; [vm_compute; reflexivity|].
  split; [vm_compute; reflexivity|].
  split_and!; vm_compute; reflexivity.
Qed.

(** A body that leaves out [name] (or [interests]) validates to a model
    whose field is [None]. *)
Lemma validate_omitted ve (req : document) b :
  Subscription.validate ve req = Some b →
  (req !! "name" = None → Subscription.name b = None)
  ∧ (req !! "interests" = None → Subscription.interests b = None).
Proof.
  unfold Subscription.validate, opt_str_field, opt_list_field. intros H.
  split; intros Hnone; rewrite Hnone in H; by simplify_option_eq.
Qed.

(** C10. Every accepted subscribe call writes the submission's own [name]
    and [interests] into the record it upserts, on insert and on update
    alike: the record it updates keeps its [_id] and [created_at], and a
    field the body leaves out is stored as [None] whatever was stored
    before. *)
Theorem subscribe_replaces_name_and_interests
    (ve : pystr → option pystr) (req : document) (b : Subscription.t)
    (t t' : N) (d : Database) :
  failure d = None →
  Subscription.validate ve req = Some b →
  ∃ d' r rs,
    post_api_subscribe ve req t t' (Some d) = (Return subscribed, Some d')
    ∧ records_for (Subscription.email b) d' = r :: rs
    ∧ r !! "name" = Some (of_opt_str (Subscription.name b))
    ∧ r !! "interests" = Some (of_opt_list (Subscription.interests b))
    ∧ (req !! "name" = None → r !! "name" = Some VNone)
    ∧ (req !! "interests" = None → r !! "interests" = Some VNone)
    ∧ (∀ r0 rs0,
         records_for (Subscription.email b) d = r0 :: rs0 →
         rs = rs0 ∧ r !! "_id" = r0 !! "_id"
         ∧ r !! "created_at" = r0 !! "created_at").
Proof.
  intros Hf Hval.
  destruct (subscribe_healthy b t t' d Hf) as (d' & Hcall & _ & Hrec).
  destruct (validate_omitted ve req b Hval) as [Hname Hint].
  assert (∃ r rs, records_for (Subscription.email b) d' = r :: rs
                  ∧ r !! "name" = Some (of_opt_str (Subscription.name b))
                  ∧ r !! "interests" = Some (of_opt_list (Subscription.interests b))
                  ∧ (∀ r0 rs0,
                       records_for (Subscription.email b) d = r0 :: rs0 →
                       rs = rs0 ∧ r !! "_id" = r0 !! "_id"
                       ∧ r !! "created_at" = r0 !! "created_at"))
    as (r & rs & Hr & Fn & Fi & Hsame).
  { destruct (records_for (Subscription.email b) d) as [|r0 rs0].
    - destruct (new_subscription_fields b t t' (next_oid d)) as (_ & ? & ? & _).
      by eexists _, _.
    - destruct (updated_record_fields b t r0) as (_ & ? & ? & _ & ? & ?).
      eexists _, _. split_and!; [exact Hrec|done|done|]. intros ? ? [= <- <-]. done. }
  exists d', r, rs. unfold post_api_subscribe. rewrite Hval.
  split_and!; try done.
  - intros Hnone. by rewrite Fn, (Hname Hnone).
  - intros Hnone. by rewrite Fi, (Hint Hnone).
Qed.

Lemma subscribe_replaces_name_and_interests_witness :
  ∃ d' r,
    post_api_subscribe has_at_sign email_only 3000 3001 (Some ada_subscribed)
    = (Return subscribed, Some d')
    ∧ records_for ada d' = [r]
    ∧ r !! "name" = Some VNone
    ∧ r !! "interests" = Some VNone
    ∧ r !! "created_at" = Some (VDatetime 1000).
Proof.
  destruct (subscribe_replaces_name_and_interests has_at_sign email_only
              {| Subscription.email := ada; Subscription.name := None;
                 Subscription.interests := None |} 3000 3001 ada_subscribed)
    as (d' & r & rs & Hcall & Hrec & _ & _ & Hname & Hint & Hsame).
  - reflexivity.
  - vm_compute. reflexivity.
  - destruct (Hsame _ [] eq_refl) as (-> & _ & Hcreated).
    exists d', r. split_and!; [done|done|by apply Hname|by apply Hint|].
    rewrite Hcreated. reflexivity.
Defined.

(** ** Contact intake *)

Lemma str_field_insert_ne k k' v (req : document) :
  k ≠ k' → str_field (<[k := v]> req) k' = str_field req k'.
Proof. intros. unfold str_field. by rewrite lookup_insert_ne. Qed.

Lemma opt_str_field_insert_ne k k' v (req : document) :
  k ≠ k' → opt_str_field (<[k := v]> req) k' = opt_str_field req k'.
Proof. intros. unfold opt_str_field. by rewrite lookup_insert_ne. Qed.

Lemma str_field_insert k s (req : document) :
  str_field (<[k := VStr s]> req) k = Some s.
Proof. unfold str_field. by rewrite lookup_insert_eq. Qed.

(** Validation of a contact body, in terms of its fields. *)
Lemma contact_validate ve (req : document) n e e' tp m :
  str_field req "name" = Some n →
  str_field req "email" = Some e →
  ve e = Some e' →
  opt_str_field req "topic" = Some tp →
  ContactMessage.validate ve (<["message" := VStr m]> req)
  = if decide (2 ≤ len n ∧ 10 ≤ len m ∧ len m ≤ 2000)
    then Some {| ContactMessage.name := n; ContactMessage.email := e';
                 ContactMessage.message := m; ContactMessage.topic := tp |}
    else None.
Proof.
  intros Hn He Hve Htp. unfold ContactMessage.validate.
  rewrite (str_field_insert_ne "message" "name") by done.
  rewrite (str_field_insert_ne "message" "email") by done.
  rewrite (opt_str_field_insert_ne "message" "topic") by done.
  rewrite str_field_insert, Hn, He, Htp. simpl. rewrite Hve. simpl.
  repeat case_guard; simpl; case_decide; first [done | tauto].
Qed.

Lemma contact_healthy message d :
  failure d = None →
  contact message (Some d)
  = (Return {| status := lit "ok";
               detail := lit "Message received. We'll be in touch!" |},
     Some (inserted "contactmessage" [ContactMessage.model_dump message] d)).
Proof.
  intros Hf. unfold contact. apply try_except_Return.
  erewrite bind_Return; [reflexivity|].
  apply create_document_healthy; [done|].
  unfold ContactMessage.model_dump. by simplify_map_eq.
Qed.

(** C6. On a reachable store, a contact body whose name has at least 2
    characters and whose email is valid is rejected by validation when its
    message has 9 characters, and nothing is written; with a message of 10
    characters (of 10 to 2000, in general) it is accepted, and the
    collection grows by exactly one record, stored under a fresh [_id]
    and so different from every record already there, whatever their
    content. *)
Theorem contact_nine_rejected_ten_stored
    (ve : pystr → option pystr) (req : document) (n e e' : pystr)
    (tp : option pystr) (m9 m : pystr) (d : Database) :
  failure d = None →
  str_field req "name" = Some n → 2 ≤ len n →
  str_field req "email" = Some e → ve e = Some e' →
  opt_str_field req "topic" = Some tp →
  len m9 = 9 →
  10 ≤ len m → len m ≤ 2000 →
  oids_below (next_oid d) (docs_of d "contactmessage") = true →
  let record :=
    ContactMessage.model_dump
      {| ContactMessage.name := n; ContactMessage.email := e';
         ContactMessage.message := m; ContactMessage.topic := tp |} in
  let stored := <["_id" := VObjectId (next_oid d)]> record in
  let d' := inserted "contactmessage" [record] d in
  post_api_contact ve (<["message" := VStr m9]> req) (Some d)
  = (Raise RequestValidationError, Some d)
  ∧ post_api_contact ve (<["message" := VStr m]> req) (Some d)
    = (Return {| status := lit "ok";
                 detail := lit "Message received. We'll be in touch!" |}, Some d')
  ∧ docs_of d' "contactmessage" = docs_of d "contactmessage" ++ [stored]
  ∧ stored ∉ docs_of d "contactmessage".
Proof.
  intros Hf Hn Hlen He Hve Htp H9 Hlo Hhi Hbelow record stored d'.
  split_and!.
  - unfold post_api_contact. rewrite (contact_validate ve req n e e' tp m9) by done.
    rewrite decide_False; [done|]. lia.
  - unfold post_api_contact. rewrite (contact_validate ve req n e e' tp m) by done.
    rewrite decide_True by done. by apply contact_healthy.
  - unfold d'. by rewrite docs_of_inserted.
  - intros Hin. unfold oids_below in Hbelow.
    rewrite forallb_forall in Hbelow. apply list_elem_of_In, Hbelow in Hin.
    unfold stored in Hin. rewrite lookup_insert_eq in Hin.
    apply N.ltb_lt in Hin. lia.
Qed.

Lemma contact_nine_rejected_ten_stored_witness :
  post_api_contact has_at_sign
    (<["message" := VStr (lit "012345678")]> contact_form) (Some contacted_store)
  = (Raise RequestValidationError, Some contacted_store)
  ∧ ∃ d' old new,
      post_api_contact has_at_sign
        (<["message" := VStr (lit "0123456789")]> contact_form) (Some contacted_store)
      = (Return {| status := lit "ok";
                   detail := lit "Message received. We'll be in touch!" |}, Some d')
      ∧ docs_of d' "contactmessage" = [old; new]
      ∧ old ≠ new
      ∧ delete "_id" old = delete "_id" new.
Proof.
  destruct (contact_nine_rejected_ten_stored has_at_sign contact_form
              (lit "Ada") ada ada None (lit "012345678") (lit "0123456789")
              contacted_store)
    as (Hreject & Haccept & Hdocs & Hfresh); try reflexivity.
  all: try (vm_compute; discriminate).
  split; [exact Hreject|].
  eexists _, _, _. split_and!; [exact Haccept|exact Hdocs| |vm_compute; reflexivity].
  intros Heq. apply Hfresh. rewrite <- Heq. apply list_elem_of_here.
Defined.



(** ** Category detail behind a comparison with [None] *)

Lemma category_detail_instance slug :
  category_detail slug = category_detail_with db_bool slug.
Proof. reflexivity. Qed.

Lemma first_match_true p docs doc :
  first_match p docs = Some doc → p doc = true.
Proof.
  induction docs as [|doc0 docs IH]; simpl; [done|].
  destruct (p doc0) eqn:Hp; [|done]. by intros [= <-].
Qed.

Lemma first_match_stamped p n docs :
  (∀ (doc : document) v, p (<["_id" := v]> doc) = p doc) →
  no_id docs = true →
  delete "_id" <$> first_match p (stamped n docs) = first_match p docs.
Proof.
  intros Hp. revert n. induction docs as [|doc docs IH]; intros n Hno; simpl in *; [done|].
  apply andb_prop in Hno as [Hdoc Hdocs]. apply bool_decide_eq_true in Hdoc.
  rewrite Hp. destruct (p doc).
  - simpl. by rewrite delete_insert_eq, delete_id.
  - by apply IH.
Qed.

Lemma matches_slug_stamped slug (doc : document) v :
  matches "slug" slug (<["_id" := v]> doc) = matches "slug" slug doc.
Proof. unfold matches. by rewrite lookup_insert_ne. Qed.

Lemma matches_nonempty field s (doc : document) :
  matches field s doc = true → falsy (Some doc) = false.
Proof.
  unfold matches, falsy. intros H. apply bool_decide_eq_false. intros ->.
  by rewrite lookup_empty in H.
Qed.

(** Had line 136 compared [db] with [None] as the other handlers do, the
    lookup on a reachable store with an empty category collection would
    seed it and return the catalog's record of the slug, or raise 404 for
    a slug the catalog does not have. *)
Lemma category_detail_with_is_not_None slug d :
  failure d = None →
  docs_of d "coursecategory" = [] →
  category_detail_with db_is_not_None slug (Some d)
  = (match first_match (matches "slug" slug) (seed_catalog Categories) with
     | Some doc => Return doc
     | None => Raise (HTTPException 404 (lit "Category not found"))
     end,
     Some (inserted "coursecategory" (seed_catalog Categories) d)).
Proof.
  intros Hf Hempty. unfold category_detail_with.
  pose proof (ensure_seeded_empty Categories d Hf Hempty) as Hseed.
  set (d1 := inserted "coursecategory" (seed_catalog Categories) d) in *.
  assert (failure d1 = None) as Hf1 by (unfold d1; by rewrite failure_inserted).
  assert (find_one "coursecategory" "slug" slug (Some d1)
          = (Return (first_match (matches "slug" slug) (seed_catalog Categories)),
             Some d1)) as Hfind.
  { unfold find_one. rewrite on_db_healthy by done. cbv beta. cbn [fst snd].
    unfold d1 at 1. rewrite docs_of_inserted, Hempty, app_nil_l.
    rewrite first_match_stamped; [done| |apply seed_catalog_no_id].
    intros. apply matches_slug_stamped. }
  destruct (first_match (matches "slug" slug) (seed_catalog Categories))
    as [doc|] eqn:Hdoc.
  - apply try_except_Return.
    erewrite bind_Return; [|exact Hseed].
    erewrite bind_Return; [|reflexivity]. cbv beta iota.
    erewrite bind_Return; [|exact Hfind].
    by rewrite (matches_nonempty _ _ _ (first_match_true _ _ _ Hdoc)).
  - erewrite try_except_Raise.
    2: { erewrite bind_Return; [|exact Hseed].
         erewrite bind_Return; [|reflexivity]. cbv beta iota.
         erewrite bind_Return; [|exact Hfind]. reflexivity. }
    reflexivity.
Qed.

(** The failing input of C4, evaluated: a reachable, empty store and the
    slug of the seed catalog's third record. The seeder writes the five
    records, then the request fails with the driver's message. *)
Example category_detail_robotics :
  category_detail (lit "robotics") (Some empty_store)
  = (Raise (HTTPException 500
       (lit "Database objects do not implement truth value testing or bool(). Please compare with None instead: database is not None")),
     Some (inserted "coursecategory" (seed_catalog Categories) empty_store)).
Proof. vm_compute. reflexivity. Qed.

Example category_detail_robotics_intended :
  (category_detail_with db_is_not_None (lit "robotics") (Some empty_store)).1
  = Return (seed_catalog Categories !!! 2%nat).
Proof. vm_compute. reflexivity. Qed.

(** * Further properties of the handlers *)

(** ** What a request may write *)

Lemma only_writes_refl target d : only_writes target d d.
Proof. by split_and!. Qed.

Lemma only_writes_inserted name docs d :
  only_writes (Some name) d (inserted name docs d).
Proof.
  split_and!.
  - apply failure_inserted.
  - intros name' Hne. apply docs_of_inserted_ne. congruence.
  - intros name'. destruct (decide (name = name')) as [<-|Hne].
    + rewrite docs_of_inserted, length_app. lia.
    + by rewrite docs_of_inserted_ne.
Qed.

Lemma length_update_first p f docs docs' :
  update_first p f docs = Some docs' → length docs' = length docs.
Proof.
  revert docs'. induction docs as [|doc docs IH]; intros docs' H; simpl in *; [done|].
  destruct (p doc).
  - by injection H as <-.
  - destruct (update_first p f docs) as [docs0|]; [|done].
    injection H as <-. simpl. by rewrite (IH _ eq_refl).
Qed.

Lemma only_writes_set_docs name docs d :
  (length (docs_of d name) ≤ length docs)%nat →
  only_writes (Some name) d (set_docs name docs d).
Proof.
  intros Hlen. split_and!; [done| |].
  - intros name' Hne. apply docs_of_set_docs_ne. congruence.
  - intros name'. destruct (decide (name = name')) as [<-|Hne].
    + by rewrite docs_of_set_docs.
    + by rewrite docs_of_set_docs_ne.
Qed.

Lemma only_writes_bump_oid target d d' :
  only_writes target d d' → only_writes target d (bump_oid d').
Proof. done. Qed.

(** The seeder leaves the store as it was or with the catalog inserted. *)
Lemma ensure_seeded_state c d :
  ∃ r d',
    ensure_seeded c (Some d) = (r, Some d')
    ∧ (d' = d ∨ d' = inserted (collection_name c) (seed_catalog c) d).
Proof.
  destruct (failure d) as [msg|] eqn:Hf.
  - eexists _, _. split; [by apply ensure_seeded_failing|by left].
  - destruct (docs_of d (collection_name c)) as [|doc docs] eqn:Hdocs.
    + eexists _, _. split; [by apply ensure_seeded_empty|by right].
    + eexists _, _. split; [|by left].
      apply ensure_seeded_nonempty; [done|]. by rewrite Hdocs.
Qed.

Lemma list_call_state c db r db' :
  ensure_seeded c db = (r, db') →
  ∃ r', list_call c db = (r', db').
Proof.
  intros H. destruct r as [data|e].
  - eexists. by apply list_call_Return.
  - eexists. by apply list_call_Raise.
Qed.

(** With a database configured, category detail ends in the state the
    seeder leaves and raises a 500. *)
Lemma category_detail_configured slug d :
  ∃ detail r0 d',
    ensure_seeded Categories (Some d) = (r0, Some d')
    ∧ category_detail slug (Some d) = (Raise (HTTPException 500 detail), Some d').
Proof.
  unfold category_detail. destruct (failure d) as [msg|] eqn:Hf.
  - exists msg, (Raise (PyMongoError msg)), d.
    split; [by apply ensure_seeded_failing|].
    erewrite try_except_Raise.
    2: { apply bind_Raise. by apply (ensure_seeded_failing Categories). }
    reflexivity.
  - destruct (ensure_seeded_healthy Categories d Hf) as (docs & d' & Hseed).
    eexists _, (Return docs), d'. split; [done|].
    erewrite try_except_Raise.
    2: { erewrite bind_Return; [|exact Hseed]. by apply bind_Raise. }
    reflexivity.
Qed.

Lemma contact_failing message d msg :
  failure d = Some msg →
  contact message (Some d) = (Raise (HTTPException 500 msg), Some d).
Proof.
  intros Hf. unfold contact. erewrite try_except_Raise.
  2: { apply bind_Raise. unfold create_document.
       rewrite (bind_Return _ _ _ _ _ (db_is_None_Some d)). cbv beta iota.
       unfold insert_one. by apply on_db_failing. }
  reflexivity.
Qed.

Lemma subscribe_failing b t t' d msg :
  failure d = Some msg →
  subscribe b t t' (Some d) = (Raise (HTTPException 500 msg), Some d).
Proof.
  intros Hf. unfold subscribe. erewrite try_except_Raise.
  2: { rewrite (bind_Return _ _ _ _ _ (db_is_None_Some d)). cbv beta iota.
       erewrite bind_Return; [|reflexivity].
       apply bind_Raise. unfold update_one_upsert. by apply on_db_failing. }
  reflexivity.
Qed.

(** The store one upsert leaves, in full. *)
Lemma subscribe_healthy_state b t t' d :
  failure d = None →
  subscribe b t t' (Some d)
  = (Return subscribed,
     Some match update_first (matches "email" (Subscription.email b))
                  (λ doc, set_fields b t ∪ doc) (docs_of d "subscription") with
          | Some docs' => set_docs "subscription" docs' d
          | None =>
              bump_oid (set_docs "subscription"
                (docs_of d "subscription" ++ [new_subscription b t t' (next_oid d)]) d)
          end).
Proof.
  intros Hf. unfold subscribe. apply try_except_Return.
  rewrite (bind_Return _ _ _ _ _ (db_is_None_Some d)). cbv beta iota.
  erewrite bind_Return; [|reflexivity].
  erewrite (bind_Return _ _ _ tt); [reflexivity|].
  unfold update_one_upsert. rewrite on_db_healthy by done.
  rewrite bson_set_fields, bson_created_at.
  by destruct (update_first _ _ (docs_of d "subscription")).
Qed.

Lemma subscribe_only_writes b t t' d :
  ∃ r d',
    subscribe b t t' (Some d) = (r, Some d')
    ∧ only_writes (Some "subscription") d d'.
Proof.
  destruct (failure d) as [msg|] eqn:Hf.
  - eexists _, _. split; [by apply subscribe_failing|apply only_writes_refl].
  - eexists _, _. split; [by apply subscribe_healthy_state|].
    destruct (update_first _ _ (docs_of d "subscription")) as [docs'|] eqn:Hupd.
    + apply only_writes_set_docs. by rewrite (length_update_first _ _ _ _ Hupd).
    + apply only_writes_bump_oid, only_writes_set_docs. rewrite length_app. lia.
Qed.

Lemma test_database_returns environ db :
  ∃ status_dict, test_database environ db = (Return status_dict, db).
Proof.
  destruct db as [d|]; [|by eexists].
  destruct (failure d) as [msg|] eqn:Hf; eexists;
    unfold test_database, try_except, on_handle, list_collection_names, on_db,
      mbind, M_bind, db_is_None, setitem; simpl; rewrite Hf; simpl; reflexivity.
Qed.

Lemma returning_inv {St A B} (f : A → B) (m : M St A) s r s' :
  returning f m s = (r, s') →
  ∃ r0, m s = (r0, s')
        ∧ match r0 with
          | Return a => r = Return (f a)
          | Raise e => r = Raise e
          end.
Proof.
  unfold returning, mbind, M_bind. destruct (m s) as [[a|e] s0]; simpl.
  - intros [= <- <-]. by eexists.
  - intros [= <- <-]. by eexists.
Qed.

Lemma category_detail_without_database_state slug :
  category_detail slug None
  = (Raise (HTTPException 404 (lit "Category not found")), None).
Proof. reflexivity. Qed.

Lemma returning_state {St A B} (f : A → B) (m : M St A) s r0 s' :
  m s = (r0, s') → ∃ r, returning f m s = (r, s').
Proof.
  intros H. unfold returning, mbind, M_bind. rewrite H.
  destruct r0; by eexists.
Qed.

Lemma post_api_contact_only_writes ve req d :
  ∃ r d',
    post_api_contact ve req (Some d) = (r, Some d')
    ∧ only_writes (Some "contactmessage") d d'.
Proof.
  unfold post_api_contact.
  destruct (ContactMessage.validate ve req) as [message|].
  - destruct (failure d) as [msg|] eqn:Hf.
    + eexists _, _. split; [by apply contact_failing|apply only_writes_refl].
    + eexists _, _. split; [by apply contact_healthy|apply only_writes_inserted].
  - eexists _, _. split; [reflexivity|apply only_writes_refl].
Qed.

Lemma ensure_seeded_only_writes c d :
  ∃ r d',
    ensure_seeded c (Some d) = (r, Some d')
    ∧ only_writes (Some (collection_name c)) d d'.
Proof.
  destruct (ensure_seeded_state c d) as (r & d' & Hrun & [->| ->]);
    eexists _, _; (split; [exact Hrun|]).
  - apply only_writes_refl.
  - apply only_writes_inserted.
Qed.

(** X1. Whatever the request and the state of a configured store, the
    handler ends with the store still configured, with no record removed
    from any collection, and with every collection other than the
    request's own ([coursecategory] for the category routes, [staff],
    [contactmessage], [subscription]; none for [/] and [/test]) holding
    exactly the records it held. *)
Theorem serve_only_writes_own_collection
    (ve : pystr → option pystr) (rq : request) (d : Database) :
  ∃ r d',
    serve ve rq (Some d) = (r, Some d')
    ∧ only_writes (written_collection rq) d d'.
Proof.
  destruct rq as [| |slug| |req|req t t'|environ]; unfold serve, written_collection.
  - eexists _, _. split; [reflexivity|apply only_writes_refl].
  - destruct (ensure_seeded_only_writes Categories d) as (r0 & d' & Hrun & Hw).
    destruct (list_call_state Categories _ _ _ Hrun) as [r1 Hlist].
    destruct (returning_state JSONItems _ _ _ _ Hlist) as [r Hr].
    by exists r, d'.
  - destruct (category_detail_configured slug d) as (detail & r0 & d' & Hseed & Hrun).
    destruct (ensure_seeded_only_writes Categories d) as (r1 & d1 & Hseed' & Hw).
    rewrite Hseed in Hseed'. injection Hseed' as <- <-.
    destruct (returning_state JSONDict _ _ _ _ Hrun) as [r Hr].
    by exists r, d'.
  - destruct (ensure_seeded_only_writes StaffMembers d) as (r0 & d' & Hrun & Hw).
    destruct (list_call_state StaffMembers _ _ _ Hrun) as [r1 Hlist].
    destruct (returning_state JSONItems _ _ _ _ Hlist) as [r Hr].
    by exists r, d'.
  - destruct (post_api_contact_only_writes ve req d) as (r0 & d' & Hrun & Hw).
    destruct (returning_state JSONMessage _ _ _ _ Hrun) as [r Hr].
    by exists r, d'.
  - unfold post_api_subscribe.
    destruct (Subscription.validate ve req) as [b|].
    + destruct (subscribe_only_writes b t t' d) as (r0 & d' & Hrun & Hw).
      destruct (returning_state JSONMessage _ _ _ _ Hrun) as [r Hr].
      by exists r, d'.
    + eexists _, _. split; [reflexivity|apply only_writes_refl].
  - destruct (test_database_returns environ (Some d)) as [sd Hrun].
    destruct (returning_state JSONDict _ _ _ _ Hrun) as [r Hr].
    exists r, d. split; [done|apply only_writes_refl].
Qed.

(** ** What a request may raise *)

Lemma try_except_to_500 {A} (m : M handle A) db e db' :
  try_except m to_500 db = (Raise e, db') →
  ∃ detail, e = HTTPException 500 detail.
Proof.
  unfold try_except. destruct (m db) as [[a|e0] db0]; [done|].
  unfold to_500, raise. intros [= <- <-]. by eexists.
Qed.

(** X2. A request answers or raises one of three things: an
    [HTTPException] with status 500; the [HTTPException(404, "Category
    not found")], on the category detail route only; or the validation
    error of FastAPI, on the two [POST] routes only. [/] and [/test] never
    raise. No other exception leaves a handler. *)
Theorem serve_raises_only_http
    (ve : pystr → option pystr) (rq : request) (db db' : handle) (e : exn) :
  serve ve rq db = (Raise e, db') →
  rq ≠ GET_root
  ∧ (∀ environ, rq ≠ GET_test environ)
  ∧ ((∃ detail, e = HTTPException 500 detail)
     ∨ (e = HTTPException 404 (lit "Category not found")
        ∧ ∃ slug, rq = GET_api_categories_slug slug)
     ∨ (e = RequestValidationError
        ∧ ((∃ req, rq = POST_api_contact req)
           ∨ ∃ req t t', rq = POST_api_subscribe req t t'))).
Proof.
  intros H. destruct rq as [| |slug| |req|req t t'|environ]; unfold serve in H;
    apply returning_inv in H as (r0 & Hrun & Hr);
    destruct r0 as [a|e0]; try discriminate Hr; injection Hr as ->.
  - discriminate Hrun.
  - split_and!; [done|done|]. left. by apply try_except_to_500 in Hrun.
  - split_and!; [done|done|]. destruct db as [d|].
    + destruct (category_detail_configured slug d) as (detail & _ & d' & _ & Hd).
      rewrite Hd in Hrun. injection Hrun as <- <-. left. by eexists.
    + rewrite category_detail_without_database_state in Hrun.
      injection Hrun as <- <-. right. left. split; [done|by eexists].
  - split_and!; [done|done|]. left. by apply try_except_to_500 in Hrun.
  - split_and!; [done|done|]. unfold post_api_contact in Hrun.
    destruct (ContactMessage.validate ve req).
    + left. by apply try_except_to_500 in Hrun.
    + injection Hrun as <- <-. right. right. split; [done|]. left. by eexists.
  - split_and!; [done|done|]. unfold post_api_subscribe in Hrun.
    destruct (Subscription.validate ve req).
    + left. by apply try_except_to_500 in Hrun.
    + injection Hrun as <- <-. right. right. split; [done|]. right. by eexists _, _, _.
  - destruct (test_database_returns environ db) as [sd Hsd].
    rewrite Hsd in Hrun. discriminate Hrun.
Qed.

Lemma serve_raises_only_http_witness :
  serve has_at_sign (POST_api_contact ∅) (Some empty_store)
  = (Raise RequestValidationError, Some empty_store)
  ∧ POST_api_contact ∅ ≠ GET_root.
Proof.
  split; [reflexivity|].
  exact (proj1 (serve_raises_only_http has_at_sign (POST_api_contact ∅)
                  (Some empty_store) (Some empty_store) RequestValidationError
                  eq_refl)).
Defined.

(** ** The list routes *)

(** X3. On a configured store that cannot be reached, a list route
    raises [HTTPException(500)] with the driver's message as detail, and
    writes nothing. *)
Theorem list_call_unreachable (c : seeded_collection) (d : Database) (msg : pystr) :
  failure d = Some msg →
  list_call c (Some d) = (Raise (HTTPException 500 msg), Some d).
Proof.
  intros Hf. rewrite (list_call_Raise c _ (PyMongoError msg) (Some d)); [done|].
  by apply ensure_seeded_failing.
Qed.

Lemma list_call_unreachable_witness :
  list_call Categories (Some (unreachable_store (lit "connection refused")))
  = (Raise (HTTPException 500 (lit "connection refused")),
     Some (unreachable_store (lit "connection refused"))).
Proof.
  exact (list_call_unreachable Categories
           (unreachable_store (lit "connection refused"))
           (lit "connection refused") eq_refl).
Defined.

Lemma list_call_inv c db i db' :
  list_call c db = (Return i, db') →
  ensure_seeded c db = (Return (items i), db').
Proof.
  destruct (ensure_seeded c db) as [[data|e] db0] eqn:Hrun.
  - rewrite (list_call_Return _ _ _ _ Hrun). by intros [= <- <-].
  - rewrite (list_call_Raise _ _ _ _ Hrun). done.
Qed.

Lemma no_id_deleted (docs : list document) :
  Forall (λ doc : document, doc !! "_id" = None) (delete "_id" <$> docs).
Proof. apply Forall_fmap, Forall_true. intros doc. apply lookup_delete_eq. Qed.

(** X4. No record in the answer of a list route carries the store's
    [_id], whatever the store holds and whether or not the call seeded
    it. *)
Theorem list_call_hides_id (c : seeded_collection) (db db' : handle) (i : Items) :
  list_call c db = (Return i, db') →
  Forall (λ doc : document, doc !! "_id" = None) (items i).
Proof.
  intros H%list_call_inv. destruct db as [d|].
  - destruct (failure d) as [msg|] eqn:Hf.
    + by rewrite (ensure_seeded_failing c d msg Hf) in H.
    + destruct (docs_of d (collection_name c)) as [|doc docs] eqn:Hdocs.
      * rewrite (ensure_seeded_empty c d Hf Hdocs) in H. injection H as <- _.
        rewrite <- (unstamp 0 (seed_catalog c) (seed_catalog_no_id c)).
        apply no_id_deleted.
      * rewrite ensure_seeded_nonempty in H; [|done|by rewrite Hdocs].
        injection H as <- _. apply no_id_deleted.
  - destruct c; injection H as <- _; constructor.
Qed.

Lemma list_call_hides_id_witness :
  Forall (λ doc : document, doc !! "_id" = None)
    [ ({[ "name" := VStr (lit "Grace") ]} : document) ].
Proof.
  exact (list_call_hides_id StaffMembers (Some foreign_store) (Some foreign_store)
           {| items := [ {[ "name" := VStr (lit "Grace") ]} ] |} eq_refl).
Defined.

(** X5. On a reachable store a list route always answers, its list is
    never empty, and asking again gives the same list and writes
    nothing: after the first call the collection is settled. *)
Theorem list_call_settles (c : seeded_collection) (d : Database) :
  failure d = None →
  ∃ i d1,
    list_call c (Some d) = (Return i, Some d1)
    ∧ items i ≠ []
    ∧ list_call c (Some d1) = (Return i, Some d1).
Proof.
  intros Hf. destruct (docs_of d (collection_name c)) as [|doc docs] eqn:Hdocs.
  - pose proof (ensure_seeded_empty c d Hf Hdocs) as Hrun.
    set (d1 := inserted (collection_name c) (seed_catalog c) d) in *.
    assert (docs_of d1 (collection_name c) = stamped (next_oid d) (seed_catalog c))
      as Hd1 by (unfold d1; by rewrite docs_of_inserted, Hdocs).
    exists {| items := seed_catalog c |}, d1. split_and!.
    + by apply list_call_Return.
    + by destruct c.
    + apply list_call_Return. rewrite ensure_seeded_nonempty.
      * by rewrite Hd1, unstamp by apply seed_catalog_no_id.
      * unfold d1. by rewrite failure_inserted.
      * rewrite Hd1. by destruct c.
  - assert (ensure_seeded c (Some d)
            = (Return (delete "_id" <$> docs_of d (collection_name c)), Some d))
      as Hrun by (apply ensure_seeded_nonempty; [done|by rewrite Hdocs]).
    eexists _, d. split_and!.
    + by apply list_call_Return.
    + simpl. by rewrite Hdocs.
    + by apply list_call_Return.
Qed.

Lemma list_call_settles_witness :
  ∃ i d1,
    list_call StaffMembers (Some foreign_store) = (Return i, Some d1)
    ∧ items i ≠ []
    ∧ list_call StaffMembers (Some d1) = (Return i, Some d1).
Proof. exact (list_call_settles StaffMembers foreign_store eq_refl). Defined.

(** X6. A category detail request on a reachable store with an empty
    category collection writes the five seed records before it answers:
    whatever its own outcome, the category list asked next returns the
    catalog and inserts nothing. *)
Theorem category_detail_seeds_first (slug : pystr) (d : Database) :
  failure d = None →
  docs_of d "coursecategory" = [] →
  let d1 := inserted "coursecategory" (seed_catalog Categories) d in
  ∃ r,
    category_detail slug (Some d) = (r, Some d1)
    ∧ length (docs_of d1 "coursecategory") = 5%nat
    ∧ list_categories (Some d1)
      = (Return {| items := seed_catalog Categories |}, Some d1).
Proof.
  intros Hf Hempty d1.
  destruct (category_detail_configured slug d) as (detail & r0 & d' & Hseed & Hrun).
  rewrite (ensure_seeded_empty Categories d Hf Hempty) in Hseed.
  injection Hseed as _ <-.
  assert (docs_of d1 "coursecategory" = stamped (next_oid d) (seed_catalog Categories))
    as Hd1 by (unfold d1; by rewrite docs_of_inserted, Hempty).
  eexists. split_and!; [exact Hrun| |].
  - by rewrite Hd1, length_stamped.
  - apply (list_call_Return Categories).
    rewrite (ensure_seeded_nonempty Categories).
    + unfold collection_name. by rewrite Hd1, unstamp.
    + unfold d1. by rewrite failure_inserted.
    + unfold collection_name. by rewrite Hd1.
Qed.

Lemma category_detail_seeds_first_witness :
  ∃ r,
    category_detail (lit "no-such-slug") (Some empty_store)
    = (r, Some (inserted "coursecategory" (seed_catalog Categories) empty_store)).
Proof.
  destruct (category_detail_seeds_first (lit "no-such-slug") empty_store
              eq_refl eq_refl) as (r & Hrun & _).
  by exists r.
Defined.

(** ** Contact intake and validation *)

Lemma contact_validate_inv ve (req : document) message :
  ContactMessage.validate ve req = Some message →
  ∃ e,
    str_field req "name" = Some (ContactMessage.name message)
    ∧ 2 ≤ len (ContactMessage.name message)
    ∧ str_field req "email" = Some e
    ∧ ve e = Some (ContactMessage.email message)
    ∧ str_field req "message" = Some (ContactMessage.message message)
    ∧ 10 ≤ len (ContactMessage.message message)
    ∧ len (ContactMessage.message message) ≤ 2000
    ∧ opt_str_field req "topic" = Some (ContactMessage.topic message).
Proof.
  unfold ContactMessage.validate. intros H.
  destruct (str_field req "name") as [n|]; [|done].
  destruct (str_field req "email") as [e|]; [|by simplify_option_eq].
  destruct (str_field req "message") as [m|]; [|by simplify_option_eq].
  destruct (opt_str_field req "topic") as [tp|]; [|by simplify_option_eq].
  simplify_option_eq. by exists e.
Qed.

(** X7. A valid contact submission to a configured store that cannot be
    reached raises [HTTPException(500)] with the driver's message, and
    nothing is stored. *)
Theorem contact_unreachable
    (ve : pystr → option pystr) (req : document) (message : ContactMessage.t)
    (d : Database) (msg : pystr) :
  ContactMessage.validate ve req = Some message →
  failure d = Some msg →
  post_api_contact ve req (Some d) = (Raise (HTTPException 500 msg), Some d).
Proof.
  intros Hval Hf. unfold post_api_contact. rewrite Hval. by apply contact_failing.
Qed.

Lemma contact_unreachable_witness :
  post_api_contact has_at_sign
    (<["message" := VStr (lit "0123456789")]> contact_form)
    (Some (unreachable_store (lit "connection refused")))
  = (Raise (HTTPException 500 (lit "connection refused")),
     Some (unreachable_store (lit "connection refused"))).
Proof.
  exact (contact_unreachable has_at_sign
           (<["message" := VStr (lit "0123456789")]> contact_form)
           {| ContactMessage.name := lit "Ada"; ContactMessage.email := ada;
              ContactMessage.message := lit "0123456789";
              ContactMessage.topic := None |}
           (unreachable_store (lit "connection refused"))
           (lit "connection refused") eq_refl eq_refl).
Defined.

(** X8. Whatever [POST /api/contact] stores respects the model: when the
    request is answered, exactly one record was appended to
    [contactmessage], its [name] has at least 2 characters, its [message]
    10 to 2000, its [email] is the validator's output for the submitted
    address, and its [topic] is a string or [None]. *)
Theorem contact_stores_valid_record
    (ve : pystr → option pystr) (req : document) (db db' : handle)
    (r : MessageResponse) :
  post_api_contact ve req db = (Return r, db') →
  ∃ d d' e (message : ContactMessage.t),
    db = Some d ∧ db' = Some d'
    ∧ docs_of d' "contactmessage"
      = docs_of d "contactmessage"
          ++ [<["_id" := VObjectId (next_oid d)]> (ContactMessage.model_dump message)]
    ∧ 2 ≤ len (ContactMessage.name message)
    ∧ 10 ≤ len (ContactMessage.message message)
    ∧ len (ContactMessage.message message) ≤ 2000
    ∧ str_field req "email" = Some e
    ∧ ve e = Some (ContactMessage.email message).
Proof.
  unfold post_api_contact. intros H.
  destruct (ContactMessage.validate ve req) as [message|] eqn:Hval; [|done].
  destruct (contact_validate_inv ve req message Hval)
    as (e & _ & Hn & He & Hve & _ & Hlo & Hhi & _).
  destruct db as [d|]; [|done].
  destruct (failure d) as [msg|] eqn:Hf.
  - by rewrite (contact_failing message d msg Hf) in H.
  - rewrite (contact_healthy message d Hf) in H. injection H as _ <-.
    exists d, (inserted "contactmessage" [ContactMessage.model_dump message] d),
      e, message.
    split_and!; try done. by rewrite docs_of_inserted.
Qed.

Lemma contact_stores_valid_record_witness :
  ∃ d' (message : ContactMessage.t),
    docs_of d' "contactmessage"
    = [<["_id" := VObjectId 0]> (ContactMessage.model_dump message)]
    ∧ 10 ≤ len (ContactMessage.message message).
Proof.
  destruct (contact_stores_valid_record has_at_sign
              (<["message" := VStr (lit "0123456789")]> contact_form)
              (Some empty_store)
              (Some (inserted "contactmessage"
                 [ContactMessage.model_dump
                    {| ContactMessage.name := lit "Ada"; ContactMessage.email := ada;
                       ContactMessage.message := lit "0123456789";
                       ContactMessage.topic := None |}] empty_store))
              {| status := lit "ok";
                 detail := lit "Message received. We'll be in touch!" |})
    as (d & d' & e & message & [= <-] & _ & Hdocs & _ & Hlo & _).
  - vm_compute. reflexivity.
  - by exists d', message.
Defined.

(** X9. [POST /api/contact] rejects, with FastAPI's validation error and
    without touching the store (configured or not), every body in which
    [name], [email] or [message] is missing or not a string, the name
    has fewer than 2 characters, the address fails the email check, the
    message has fewer than 10 or more than 2000 characters, or [topic] is
    neither a string nor [None]. *)
Theorem contact_rejects
    (ve : pystr → option pystr) (req : document) (db : handle) :
  str_field req "name" = None
  ∨ (∃ n, str_field req "name" = Some n ∧ len n < 2)
  ∨ str_field req "email" = None
  ∨ (∃ e, str_field req "email" = Some e ∧ ve e = None)
  ∨ str_field req "message" = None
  ∨ (∃ m, str_field req "message" = Some m ∧ (len m < 10 ∨ 2000 < len m))
  ∨ opt_str_field req "topic" = None →
  post_api_contact ve req db = (Raise RequestValidationError, db).
Proof.
  intros H. unfold post_api_contact.
  destruct (ContactMessage.validate ve req) as [message|] eqn:Hval; [|done].
  destruct (contact_validate_inv ve req message Hval)
    as (e & Hn & Hnlen & He & Hve & Hm & Hlo & Hhi & Htp).
  exfalso. destruct H as [H|[(n & H & ?)|[H|[(e0 & H & ?)|[H|[(m & H & ?)|H]]]]]];
    simplify_eq; lia.
Qed.

Lemma contact_rejects_witness :
  post_api_contact has_at_sign
    (<["message" := VStr (lit "0123456789")]> (<["name" := VStr (lit "A")]> contact_form))
    None
  = (Raise RequestValidationError, None).
Proof.
  apply contact_rejects. right. left. exists (lit "A"). split; [reflexivity|].
  vm_compute. reflexivity.
Defined.

(** X10. In a request body an optional field given as [null] is the
    field left out: [name] and [interests] of a subscription, [topic] of
    a contact message. *)
Theorem null_is_omitted (ve : pystr → option pystr) (req : document) :
  Subscription.validate ve (<["name" := VNone]> req)
  = Subscription.validate ve (delete "name" req)
  ∧ Subscription.validate ve (<["interests" := VNone]> req)
    = Subscription.validate ve (delete "interests" req)
  ∧ ContactMessage.validate ve (<["topic" := VNone]> req)
    = ContactMessage.validate ve (delete "topic" req).
Proof.
  unfold Subscription.validate, ContactMessage.validate,
    str_field, opt_str_field, opt_list_field.
  split_and!.
  - rewrite (lookup_insert_ne _ "name" "email"), (lookup_delete_ne _ "name" "email"),
      (lookup_insert_ne _ "name" "interests"), (lookup_delete_ne _ "name" "interests"),
      lookup_insert_eq, lookup_delete_eq by done.
    done.
  - rewrite (lookup_insert_ne _ "interests" "email"),
      (lookup_delete_ne _ "interests" "email"),
      (lookup_insert_ne _ "interests" "name"), (lookup_delete_ne _ "interests" "name"),
      lookup_insert_eq, lookup_delete_eq by done.
    done.
  - rewrite (lookup_insert_ne _ "topic" "name"), (lookup_delete_ne _ "topic" "name"),
      (lookup_insert_ne _ "topic" "email"), (lookup_delete_ne _ "topic" "email"),
      (lookup_insert_ne _ "topic" "message"), (lookup_delete_ne _ "topic" "message"),
      lookup_insert_eq, lookup_delete_eq by done.
    done.
Qed.

(** ** More on subscriptions *)

(** X11. A subscribe call on a reachable store changes the number of
    subscription records by one at most: when no record matches the
    email, the new record (the body's fields, [updated_at] and
    [created_at] at the millisecond of their clock readings, and a fresh
    [_id]) is appended after the records already there; when one matches,
    the number of records stays. *)
Theorem subscribe_appends_or_updates (b : Subscription.t) (t t' : N) (d : Database) :
  failure d = None →
  ∃ d',
    subscribe b t t' (Some d) = (Return subscribed, Some d')
    ∧ match records_for (Subscription.email b) d with
      | [] =>
          docs_of d' "subscription"
          = docs_of d "subscription" ++ [new_subscription b t t' (next_oid d)]
      | _ :: _ =>
          length (docs_of d' "subscription") = length (docs_of d "subscription")
      end.
Proof.
  intros Hf. destruct (subscribe_healthy_docs b t t' d Hf) as (d' & Hrun & _ & Hdocs).
  exists d'. split; [done|]. rewrite Hdocs. unfold records_for.
  pose proof (update_first_None (matches "email" (Subscription.email b))
                (λ doc, set_fields b t ∪ doc) (docs_of d "subscription")) as Hnone.
  destruct (update_first _ _ (docs_of d "subscription")) as [docs'|] eqn:Hupd.
  - destruct (List.filter _ (docs_of d "subscription")).
    + discriminate (proj2 Hnone eq_refl).
    + by apply (length_update_first _ _ _ _ Hupd).
  - by rewrite (proj1 Hnone eq_refl).
Qed.

Lemma subscribe_appends_or_updates_witness :
  ∃ d',
    subscribe (body second_call) 2000 2001 (Some ada_subscribed)
    = (Return subscribed, Some d')
    ∧ length (docs_of d' "subscription") = 1%nat.
Proof.
  destruct (subscribe_appends_or_updates (body second_call) 2000 2001
              ada_subscribed eq_refl) as (d' & Hrun & Hlen).
  by exists d'.
Defined.

Lemma update_first_lookup p f (docs docs' : list document) i doc :
  update_first p f docs = Some docs' →
  docs !! i = Some doc →
  docs' !! i = Some doc ∨ docs' !! i = Some (f doc).
Proof.
  revert docs' i. induction docs as [|doc0 docs IH]; intros docs' i H Hi; [done|].
  simpl in H. destruct (p doc0).
  - injection H as <-. destruct i as [|i]; simpl in *; [|by left].
    injection Hi as ->. by right.
  - destruct (update_first p f docs) as [docs0|]; [|done].
    injection H as <-. destruct i as [|i]; simpl in *; [by left|].
    by apply IH.
Qed.

(** X12. No subscribe call, whatever its outcome, moves a record of the
    [subscription] collection or changes the [_id] or the [created_at]
    of one: the record that was at a position is still there with both
    fields as they were. *)
Theorem subscribe_keeps_id_and_created_at
    (b : Subscription.t) (t t' : N) (d : Database) :
  ∃ r d',
    subscribe b t t' (Some d) = (r, Some d')
    ∧ ∀ (i : nat) doc,
        docs_of d "subscription" !! i = Some doc →
        ∃ doc',
          docs_of d' "subscription" !! i = Some doc'
          ∧ doc' !! "_id" = doc !! "_id"
          ∧ doc' !! "created_at" = doc !! "created_at".
Proof.
  destruct (failure d) as [msg|] eqn:Hf.
  - eexists _, d. split; [by apply subscribe_failing|]. intros i doc Hi. by exists doc.
  - destruct (subscribe_healthy_docs b t t' d Hf) as (d' & Hrun & _ & Hdocs).
    eexists _, d'. split; [exact Hrun|]. intros i doc Hi. rewrite Hdocs.
    destruct (update_first _ _ (docs_of d "subscription")) as [docs'|] eqn:Hupd.
    + destruct (update_first_lookup _ _ _ _ _ _ Hupd Hi) as [H|H].
      * by exists doc.
      * destruct (updated_record_fields b t doc) as (_ & _ & _ & _ & Hc & Hid).
        by eexists.
    + exists doc. split; [|done]. by apply lookup_app_l_Some.
Qed.

Lemma filter_update_first_frame (p q : document → bool) f docs docs' :
  Forall (λ doc, p doc = true → q doc = false) docs →
  (∀ doc, q (f doc) = false) →
  update_first p f docs = Some docs' →
  List.filter q docs' = List.filter q docs.
Proof.
  intros Hpq Hq. revert docs'.
  induction Hpq as [|doc docs Hdoc Hdocs IH]; intros docs' H; simpl in *; [done|].
  destruct (p doc) eqn:Hp.
  - injection H as <-. simpl. by rewrite Hq, (Hdoc eq_refl).
  - destruct (update_first p f docs) as [docs0|]; [|done].
    injection H as <-. simpl. by rewrite (IH _ eq_refl).
Qed.

Lemma forallb_update_first (g p : document → bool) f docs docs' :
  (∀ doc, g (f doc) = true) →
  forallb g docs = true →
  update_first p f docs = Some docs' →
  forallb g docs' = true.
Proof.
  intros Hg. revert docs'.
  induction docs as [|doc docs IH]; intros docs' Hall H; simpl in *; [done|].
  apply andb_prop in Hall as [Hdoc Hdocs]. destruct (p doc).
  - injection H as <-. simpl. by rewrite Hg, Hdocs.
  - destruct (update_first p f docs) as [docs0|]; [|done].
    injection H as <-. simpl. by rewrite Hdoc, (IH _ Hdocs eq_refl).
Qed.

(** A record with a scalar [email] answers the filter of one address only. *)
Lemma scalar_email_one_address e e' docs :
  e ≠ e' →
  scalar_emails docs = true →
  Forall (λ doc, matches "email" e' doc = true → matches "email" e doc = false) docs.
Proof.
  intros Hne Hscalar. apply Forall_forall. intros doc Hin.
  unfold scalar_emails in Hscalar. rewrite forallb_forall in Hscalar.
  apply list_elem_of_In, Hscalar in Hin. unfold matches.
  destruct (doc !! "email") as [[]|]; try done.
  intros ->%bool_decide_eq_true. apply bool_decide_eq_false. congruence.
Qed.

(** One upsert on a reachable store whose records have scalar emails. *)
Lemma subscribe_scalar_step b t t' d :
  failure d = None →
  scalar_emails (docs_of d "subscription") = true →
  ∃ d',
    subscribe b t t' (Some d) = (Return subscribed, Some d')
    ∧ failure d' = None
    ∧ scalar_emails (docs_of d' "subscription") = true
    ∧ ∀ e, e ≠ Subscription.email b → records_for e d' = records_for e d.
Proof.
  intros Hf Hscalar.
  destruct (subscribe_healthy_docs b t t' d Hf) as (d' & Hrun & Hf' & Hdocs).
  assert (∀ e doc, e ≠ Subscription.email b →
                   matches "email" e (set_fields b t ∪ doc) = false) as Hset.
  { intros e doc Hne. unfold matches.
    rewrite (lookup_union_Some_l _ _ _ _ (proj1 (set_fields_lookup b t))).
    by apply bool_decide_eq_false. }
  assert (∀ e, e ≠ Subscription.email b →
               matches "email" e (new_subscription b t t' (next_oid d)) = false) as Hnew.
  { intros e Hne. unfold matches.
    rewrite (proj1 (new_subscription_fields b t t' (next_oid d))).
    by apply bool_decide_eq_false. }
  exists d'. split_and!; [done|done| |].
  - rewrite Hdocs.
    destruct (update_first _ _ (docs_of d "subscription")) as [docs'|] eqn:Hupd.
    + apply (forallb_update_first _ _ _ _ _) with (3 := Hupd); [|done].
      intros doc. cbv beta.
      by rewrite (lookup_union_Some_l _ _ _ _ (proj1 (set_fields_lookup b t))).
    + unfold scalar_emails. rewrite forallb_app. fold (scalar_emails (docs_of d "subscription")).
      rewrite Hscalar. simpl.
      by rewrite (proj1 (new_subscription_fields b t t' (next_oid d))).
  - intros e Hne. unfold records_for. rewrite Hdocs.
    destruct (update_first _ _ (docs_of d "subscription")) as [docs'|] eqn:Hupd.
    + apply (filter_update_first_frame _ _ _ _ _
               (scalar_email_one_address e _ _ Hne Hscalar) (λ doc, Hset e doc Hne) Hupd).
    + rewrite List.filter_app. simpl. by rewrite (Hnew e Hne), app_nil_r.
Qed.

(** X13. When the subscription records have scalar emails, as every
    record this service writes has, a subscribe call leaves the records
    of every other email exactly as they were, and the records still
    have scalar emails afterwards. *)
Theorem subscribe_other_emails_untouched
    (b : Subscription.t) (t t' : N) (d : Database) (e : pystr) :
  failure d = None →
  scalar_emails (docs_of d "subscription") = true →
  e ≠ Subscription.email b →
  ∃ d',
    subscribe b t t' (Some d) = (Return subscribed, Some d')
    ∧ scalar_emails (docs_of d' "subscription") = true
    ∧ records_for e d' = records_for e d.
Proof.
  intros Hf Hscalar Hne.
  destruct (subscribe_scalar_step b t t' d Hf Hscalar) as (d' & Hrun & _ & Hs & Hframe).
  exists d'. split_and!; [done|done|]. by apply Hframe.
Qed.

Lemma subscribe_other_emails_untouched_witness :
  ∃ d',
    subscribe {| Subscription.email := lit "bob@example.org";
                 Subscription.name := None; Subscription.interests := None |}
      3000 3001 (Some ada_subscribed)
    = (Return subscribed, Some d')
    ∧ records_for ada d' = records_for ada ada_subscribed.
Proof.
  destruct (subscribe_other_emails_untouched
              {| Subscription.email := lit "bob@example.org";
                 Subscription.name := None; Subscription.interests := None |}
              3000 3001 ada_subscribed ada) as (d' & Hrun & _ & Hframe).
  - reflexivity.
  - vm_compute. reflexivity.
  - vm_compute. discriminate.
  - by exists d'.
Defined.

(** X14. From a reachable store whose subscription records have scalar
    emails and at most one record per email (the empty collection, for
    one), any sequence of subscribe calls, for any emails in any order,
    completes and leaves at most one record per email, exactly one for
    every email that was submitted, and still one for every email that
    had one before. *)
Theorem subscribe_each_one_record_each (calls : list call) : ∀ d : Database,
  failure d = None →
  scalar_emails (docs_of d "subscription") = true →
  (∀ e, (length (records_for e d) ≤ 1)%nat) →
  ∃ d',
    subscribe_each calls (Some d) = (Return tt, Some d')
    ∧ (∀ e, (length (records_for e d') ≤ 1)%nat)
    ∧ (∀ c, c ∈ calls →
            length (records_for (Subscription.email (body c)) d') = 1%nat)
    ∧ (∀ e, length (records_for e d) = 1%nat → length (records_for e d') = 1%nat).
Proof.
  induction calls as [|c calls IH]; intros d Hf Hscalar Hinv.
  - exists d. split_and!; try done. intros c Hc. by apply elem_of_nil in Hc.
  - destruct (subscribe_scalar_step (body c) (now_set c) (now_insert c) d Hf Hscalar)
      as (d1 & Hrun & Hf1 & Hscalar1 & Hframe).
    destruct (subscribe_healthy (body c) (now_set c) (now_insert c) d Hf)
      as (d1' & Hrun' & _ & Hrec).
    rewrite Hrun in Hrun'. injection Hrun' as <-.
    assert (length (records_for (Subscription.email (body c)) d1) = 1%nat) as Hone.
    { rewrite Hrec. specialize (Hinv (Subscription.email (body c))).
      destruct (records_for (Subscription.email (body c)) d) as [|r [|r' rs]];
        simpl in *; [done|done|lia]. }
    assert (∀ e, (length (records_for e d1) ≤ 1)%nat) as Hinv1.
    { intros e. destruct (decide (e = Subscription.email (body c))) as [->|Hne].
      - by rewrite Hone.
      - by rewrite (Hframe e Hne). }
    assert (∀ e, length (records_for e d) = 1%nat → length (records_for e d1) = 1%nat)
      as Hkeep1.
    { intros e He. destruct (decide (e = Subscription.email (body c))) as [->|Hne].
      - done.
      - by rewrite (Hframe e Hne). }
    destruct (IH d1 Hf1 Hscalar1 Hinv1) as (d' & Hrest & Hinv' & Hcalls & Hkeep).
    exists d'. split_and!.
    + by rewrite subscribe_each_cons, Hrun.
    + done.
    + intros c0 [->|Hc0]%elem_of_cons; [by apply Hkeep|by apply Hcalls].
    + intros e He. by apply Hkeep, Hkeep1.
Qed.

Lemma subscribe_each_one_record_each_witness :
  ∃ d',
    subscribe_each [first_call; second_call] (Some empty_store) = (Return tt, Some d')
    ∧ length (records_for ada d') = 1%nat.
Proof.
  destruct (subscribe_each_one_record_each [first_call; second_call] empty_store)
    as (d' & Hrun & _ & Hcalls & _).
  - reflexivity.
  - reflexivity.
  - intros e. vm_compute. lia.
  - exists d'. split; [done|]. apply (Hcalls first_call). apply list_elem_of_here.
Defined.

Lemma update_first_settled p f docs docs' :
  (∀ doc, p (f doc) = true) →
  (∀ doc, f (f doc) = f doc) →
  update_first p f docs = Some docs' →
  update_first p f docs' = Some docs'.
Proof.
  intros Hp Hf. revert docs'.
  induction docs as [|doc docs IH]; intros docs' H; simpl in *; [done|].
  destruct (p doc) eqn:Hdoc.
  - injection H as <-. simpl. by rewrite Hp, Hf.
  - destruct (update_first p f docs) as [docs0|]; [|done].
    injection H as <-. simpl. by rewrite Hdoc, (IH _ eq_refl).
Qed.

Lemma update_first_app_None p f docs l :
  update_first p f docs = None →
  update_first p f (docs ++ l) = (docs ++.) <$> update_first p f l.
Proof.
  induction docs as [|doc docs IH]; intros H; simpl in *.
  - by destruct (update_first p f l).
  - destruct (p doc); [done|].
    destruct (update_first p f docs); [done|].
    rewrite (IH eq_refl). by destruct (update_first p f l).
Qed.

Lemma set_fields_twice b t (doc : document) :
  set_fields b t ∪ (set_fields b t ∪ doc) = set_fields b t ∪ doc.
Proof. by rewrite (assoc_L (∪)), (idemp_L (∪)). Qed.

Lemma set_fields_new_subscription b t t' oid :
  set_fields b t ∪ new_subscription b t t' oid = new_subscription b t t' oid.
Proof.
  apply map_eq. intros k.
  destruct (set_fields b t !! k) as [v|] eqn:Hk.
  - rewrite (lookup_union_Some_l _ _ _ _ Hk). symmetry.
    unfold new_subscription.
    assert (k ≠ "_id") as Hid.
    { intros ->. by rewrite (proj2 (proj2 (proj2 (proj2 (proj2
        (set_fields_lookup b t)))))) in Hk. }
    assert (k ≠ "created_at") as Hc.
    { intros ->. by rewrite (proj1 (proj2 (proj2 (proj2 (proj2
        (set_fields_lookup b t)))))) in Hk. }
    rewrite lookup_insert_ne by done.
    rewrite lookup_union_r by by rewrite lookup_singleton_ne.
    by apply lookup_union_Some_l.
  - by apply lookup_union_r.
Qed.

Lemma set_docs_twice name docs d :
  set_docs name docs (set_docs name docs d) = set_docs name docs d.
Proof. unfold set_docs; simpl. by rewrite insert_insert_eq. Qed.

(** X15. A subscribe call repeated with the same body and the same
    clock reading for [updated_at] changes nothing: the second call
    answers like the first and leaves the store exactly as the first
    left it. *)
Theorem subscribe_again_changes_nothing
    (b : Subscription.t) (t t' t'' : N) (d : Database) :
  failure d = None →
  ∃ d1,
    subscribe b t t' (Some d) = (Return subscribed, Some d1)
    ∧ subscribe b t t'' (Some d1) = (Return subscribed, Some d1).
Proof.
  intros Hf. eexists. split; [by apply subscribe_healthy_state|].
  destruct (update_first _ _ (docs_of d "subscription")) as [docs'|] eqn:Hupd.
  - rewrite subscribe_healthy_state by done. rewrite docs_of_set_docs.
    rewrite (update_first_settled _ (λ doc, set_fields b t ∪ doc) _ _
               (matches_set_fields b t) (set_fields_twice b t) Hupd).
    by rewrite set_docs_twice.
  - rewrite subscribe_healthy_state by done.
    rewrite docs_of_bump_oid, docs_of_set_docs.
    rewrite (update_first_app_None _ (λ doc, set_fields b t ∪ doc) _ _ Hupd). simpl.
    rewrite matches_new_subscription. simpl.
    rewrite set_fields_new_subscription.
    unfold set_docs, bump_oid; simpl. by rewrite insert_insert_eq.
Qed.

Lemma subscribe_again_changes_nothing_witness :
  ∃ d1,
    subscribe (body first_call) 1000 1001 (Some empty_store)
    = (Return subscribed, Some d1)
    ∧ subscribe (body first_call) 1000 9999 (Some d1)
      = (Return subscribed, Some d1).
Proof.
  exact (subscribe_again_changes_nothing (body first_call) 1000 1001 9999
           empty_store eq_refl).
Defined.

(** ** More on the diagnostic route *)

Lemma getenv_truthy_spec (environ : gmap string pystr) k :
  getenv_truthy environ k = true ↔ ∃ c s, environ !! k = Some (c :: s).
Proof.
  unfold getenv_truthy. destruct (environ !! k) as [[|c s]|]; split; try done.
  - by intros (? & ? & ?).
  - by eexists _, _.
  - by intros (? & ? & ?).
Qed.

Global Instance lit_inj : Inj (=) (=) lit.
Proof.
  assert (Inj (=) (=) N_of_ascii) as Hinj.
  { intros a1 a2 H. by rewrite <- (ascii_N_embedding a1), <- (ascii_N_embedding a2), H. }
  intros s1 s2 H. unfold lit in H.
  apply (inj (fmap N_of_ascii)) in H.
  rewrite <- (string_of_list_ascii_of_string s1), <- (string_of_list_ascii_of_string s2).
  by rewrite H.
Qed.

(** X16. On a reachable store [GET /test] reports ["Connected"], ten
    collection names at most, each the name of a collection of the store
    and none twice (all of them when the store has ten or fewer), and
    for each of [DATABASE_URL] and [DATABASE_NAME] whether the variable
    is set to a non-empty string: a variable set to the empty string is
    reported as not set. *)
Theorem test_database_reachable (environ : gmap string pystr) (d : Database) :
  failure d = None →
  ∃ status_dict names,
    test_database environ (Some d) = (Return status_dict, Some d)
    ∧ status_dict !! "database"
      = Some (VStr (check_mark ++ lit " Connected & Working"))
    ∧ status_dict !! "connection_status" = Some (VStr (lit "Connected"))
    ∧ status_dict !! "collections" = Some (VList names)
    ∧ length names = (10 `min` size (collections d))%nat
    ∧ NoDup names
    ∧ (∀ n, n ∈ names → ∃ k, n = lit k ∧ is_Some (collections d !! k))
    ∧ status_dict !! "database_url" = Some (VStr (set_or_not environ "DATABASE_URL"))
    ∧ status_dict !! "database_name" = Some (VStr (set_or_not environ "DATABASE_NAME"))
    ∧ ∀ k, set_or_not environ k = check_mark ++ lit " Set"
           ↔ ∃ c s, environ !! k = Some (c :: s).
Proof.
  intros Hf.
  exists (<["database" := VStr (check_mark ++ lit " Connected & Working")]>
            (<["collections" :=
                 VList (take 10 ((λ kv, lit kv.1) <$> map_to_list (collections d)))]>
               (<["connection_status" := VStr (lit "Connected")]>
                  (<["database_name" := VStr (set_or_not environ "DATABASE_NAME")]>
                     (<["database_url" := VStr (set_or_not environ "DATABASE_URL")]>
                        (<["database" := VStr (check_mark ++ lit " Available")]>
                           not_connected)))))),
    (take 10 ((λ kv, lit kv.1) <$> map_to_list (collections d))).
  assert ((λ kv : string * list document, lit kv.1) <$> map_to_list (collections d)
          = lit <$> (map_to_list (collections d)).*1) as Hnames
    by apply (list_fmap_compose fst lit).
  split_and!.
  - unfold test_database, try_except, on_handle, list_collection_names, on_db,
      mbind, M_bind, db_is_None, setitem. simpl. rewrite Hf. simpl. reflexivity.
  - by simplify_map_eq.
  - by simplify_map_eq.
  - by simplify_map_eq.
  - by rewrite length_take, length_fmap, length_map_to_list.
  - eapply sublist_NoDup; [|apply sublist_take]. rewrite Hnames.
    apply (NoDup_fmap_2 lit), NoDup_fst_map_to_list.
  - intros n Hn%subseteq_take. apply list_elem_of_fmap in Hn as ([k docs] & -> & Hk).
    exists k. split; [done|]. apply elem_of_map_to_list in Hk. by eexists.
  - by simplify_map_eq.
  - by simplify_map_eq.
  - intros k. rewrite <- getenv_truthy_spec. unfold set_or_not.
    destruct (getenv_truthy environ k); split; done.
Qed.

Lemma test_database_reachable_witness :
  ∃ status_dict,
    test_database {[ "DATABASE_URL" := [] ]} (Some ada_subscribed)
    = (Return status_dict, Some ada_subscribed)
    ∧ status_dict !! "connection_status" = Some (VStr (lit "Connected"))
    ∧ status_dict !! "database_url" = Some (VStr (cross_mark ++ lit " Not Set")).
Proof.
  destruct (test_database_reachable {[ "DATABASE_URL" := [] ]} ada_subscribed eq_refl)
    as (sd & names & Hrun & _ & Hc & _ & _ & _ & _ & Hurl & _).
  by exists sd.
Defined.

(** X17. Without a database [GET /test] returns its initial dict,
    ["Not Connected"] with both variables reported as [None], and does
    not consult the environment. On a configured store that cannot be
    reached it still reports ["Connected"] and the two variables, with an
    empty collection list. *)
Theorem test_database_degraded
    (environ : gmap string pystr) (d : Database) (msg : pystr) :
  failure d = Some msg →
  test_database environ None = (Return not_connected, None)
  ∧ ∃ status_dict,
      test_database environ (Some d) = (Return status_dict, Some d)
      ∧ status_dict !! "connection_status" = Some (VStr (lit "Connected"))
      ∧ status_dict !! "collections" = Some (VList [])
      ∧ status_dict !! "database_url" = Some (VStr (set_or_not environ "DATABASE_URL"))
      ∧ status_dict !! "database_name"
        = Some (VStr (set_or_not environ "DATABASE_NAME")).
Proof.
  intros Hf. split; [reflexivity|]. eexists. split_and!.
  - unfold test_database, try_except, on_handle, list_collection_names, on_db,
      mbind, M_bind, db_is_None, setitem. simpl. rewrite Hf. simpl. reflexivity.
  - by simplify_map_eq.
  - by simplify_map_eq.
  - by simplify_map_eq.
  - by simplify_map_eq.
Qed.

Lemma test_database_degraded_witness :
  test_database {[ "DATABASE_URL" := lit "mongodb://db" ]} None
  = (Return not_connected, None).
Proof.
  exact (proj1 (test_database_degraded {[ "DATABASE_URL" := lit "mongodb://db" ]}
                  (unreachable_store (lit "connection refused"))
                  (lit "connection refused") eq_refl)).
Defined.

(** X18. [contact] has no guard on [db] of its own: without a database a
    valid submission reaches [create_document], whose failure the handler
    turns into an [HTTPException(500)]; the route does not degrade to an
    empty answer as the list routes do. *)
Theorem contact_without_database
    (ve : pystr → option pystr) (req : document) (message : ContactMessage.t) :
  ContactMessage.validate ve req = Some message →
  ∃ detail,
    post_api_contact ve req None = (Raise (HTTPException 500 detail), None).
Proof.
  intros Hval. unfold post_api_contact. rewrite Hval. by eexists.
Qed.

Lemma contact_without_database_witness :
  ∃ detail,
    post_api_contact has_at_sign
      (<["message" := VStr (lit "0123456789")]> contact_form) None
    = (Raise (HTTPException 500 detail), None).
Proof.
  apply (contact_without_database has_at_sign _
           {| ContactMessage.name := lit "Ada"; ContactMessage.email := ada;
              ContactMessage.message := lit "0123456789";
              ContactMessage.topic := None |}).
  vm_compute. reflexivity.
Defined.
